(** * funretro-export: the board extractor and its two serializers

    A shallow embedding of [src/index.js]: the function [run] (the walk over
    the rendered page, the vote filter and the switch on the file type), the
    two serializers [parseTextFile] and [parseCSV], and the rest of the
    module: [writeToFile], [handleError] and the top level, as the list of
    what they do to the outside.

    Conventions of the embedding.
    - A JavaScript string is a [string]; each [ascii] stands for one code
      unit below 256.
    - A JavaScript number is a [number]: [NaN], [-Infinity] or an integer
      ([parseInt] results, array lengths, [Math.max] of lengths, [+ 1]).
      Integers are kept exact: this is JavaScript up to 2^53 in absolute
      value, beyond which [parseInt] rounds (and ends at [Infinity]) and, from
      10^21 on, a template literal prints an exponent.
    - [throw] and a rejected promise are the [Err] case of [result].
    - The rendered page is seen through the selectors of [settings.json]
      only, so a page is the tree of what those selectors find, together
      with whether [page.goto] and [page.waitForSelector] resolve on it. The
      browser is taken as launched.
    - [argv] and [settings], the constants of the module that every function
      has in scope, are the record [Env], passed to every function. *)

From Stdlib Require Import String Ascii List ZArith Lia Bool DecimalString DecimalZ.
Import ListNotations.
Local Open Scope string_scope.
Local Open Scope Z_scope.

(** ** Strings *)

Definition LF : string := String (ascii_of_nat 10) EmptyString.
Definition CRLF : string := String (ascii_of_nat 13) LF.

(** The code units below 256 that [String.prototype.trim] and [parseInt]
    strip: TAB, LF, VT, FF, CR, space and the no-break space. *)
Definition is_white_space (c : ascii) : bool :=
  let n := nat_of_ascii c in
  (((9 <=? n) && (n <=? 13)) || (n =? 32) || (n =? 160))%nat.

Fixpoint trim_start (s : string) : string :=
  match s with
  | EmptyString => EmptyString
  | String c r => if is_white_space c then trim_start r else s
  end.

Fixpoint trim_end (s : string) : string :=
  match s with
  | EmptyString => EmptyString
  | String c r =>
      match trim_end r with
      | EmptyString => if is_white_space c then EmptyString else String c EmptyString
      | r' => String c r'
      end
  end.

(** [s.trim()] *)
Definition trim (s : string) : string := trim_end (trim_start s).

Fixpoint all_white_space (s : string) : bool :=
  match s with
  | EmptyString => true
  | String c r => is_white_space c && all_white_space r
  end.

(** ** Numbers *)

Inductive number : Type :=
  | NaN
  | NegInfinity
  | Int (z : Z).

(** [a >= b] *)
Definition num_ge (a b : number) : bool :=
  match a, b with
  | NaN, _ | _, NaN => false
  | _, NegInfinity => true
  | NegInfinity, Int _ => false
  | Int x, Int y => y <=? x
  end.

(** [a < b] *)
Definition num_lt (a b : number) : bool :=
  match a, b with
  | NaN, _ | _, NaN => false
  | _, NegInfinity => false
  | NegInfinity, Int _ => true
  | Int x, Int y => x <? y
  end.

(** [a + b] *)
Definition num_add (a b : number) : number :=
  match a, b with
  | NaN, _ | _, NaN => NaN
  | NegInfinity, _ | _, NegInfinity => NegInfinity
  | Int x, Int y => Int (x + y)
  end.

(** [Math.max(a, b)] *)
Definition num_max (a b : number) : number :=
  match a, b with
  | NaN, _ | _, NaN => NaN
  | NegInfinity, x | x, NegInfinity => x
  | Int x, Int y => Int (Z.max x y)
  end.

(** [Math.max.apply(Math, l)]: the maximum of no number is [-Infinity]. *)
Definition Math_max (l : list number) : number :=
  fold_left num_max l NegInfinity.

(** The string a template literal puts for a number: for an integer its
    decimal digits, with a minus sign below zero (as JavaScript does below
    10^21 in absolute value). *)
Definition number_to_string (n : number) : string :=
  match n with
  | NaN => "NaN"
  | NegInfinity => "-Infinity"
  | Int z => NilZero.string_of_int (Z.to_int z)
  end.

(** *** parseInt *)

Definition digit_value (c : ascii) : option Z :=
  let n := Z.of_nat (nat_of_ascii c) in
  if (48 <=? n) && (n <=? 57) then Some (n - 48)
  else if (97 <=? n) && (n <=? 122) then Some (n - 87)
  else if (65 <=? n) && (n <=? 90) then Some (n - 55)
  else None.

(** The longest prefix of radix-[R] digits, read as an integer; [acc] is
    [None] until a first digit has been read. *)
Fixpoint parse_digits (R : Z) (s : string) (acc : option Z) : option Z :=
  match s with
  | EmptyString => acc
  | String c r =>
      match digit_value c with
      | Some d =>
          if d <? R
          then parse_digits R r (Some (R * (match acc with Some a => a | None => 0 end) + d))
          else acc
      | None => acc
      end
  end.

(** [parseInt(s)] with no radix argument: leading white space, a sign, a
    [0x] or [0X] prefix, then as many digits as there are; the integer read
    is kept exact (as JavaScript does up to 2^53 in absolute value). *)
Definition parseInt (s : string) : number :=
  let s0 := trim_start s in
  let '(sign, s1) :=
    match s0 with
    | String "-" r => (-1, r)
    | String "+" r => (1, r)
    | _ => (1, s0)
    end in
  let '(R, s2) :=
    match s1 with
    | String "0" (String "x" r) => (16, r)
    | String "0" (String "X" r) => (16, r)
    | _ => (10, s1)
    end in
  match parse_digits R s2 None with
  | None => NaN
  | Some m => Int (sign * m)
  end.

(** ** Errors *)

(** The roles of [settings.selectors]; the expressions themselves are in
    [settings.json]. *)
Inductive selector : Type :=
  | boardTitleIdentifier
  | messageColumn
  | columnHeader
  | messageContainer
  | messageVotes
  | messageText.

(** What [run] can reject with: a failure of the page provider, or one of the
    two strings the source throws. *)
Inductive error : Type :=
  | NavigationFailed
  | WaitTimeout (sel : selector)
  | ElementNotFound (sel : selector)
  | Thrown (msg : string).

Inductive result (A : Type) : Type :=
  | Ok (a : A)
  | Err (e : error).
Arguments Ok {A} a.
Arguments Err {A} e.

Definition bind {A B : Type} (r : result A) (k : A -> result B) : result B :=
  match r with
  | Ok a => k a
  | Err e => Err e
  end.

Notation "x <- r ;; k" := (bind r (fun x => k))
  (at level 61, r at next level, right associativity).

(** ** The globals of the module *)

Module Argv.
Record t : Type := { url : string; filePath : string; fileType : string }.
End Argv.

Module Settings.
(** [settings.json] is not part of the sources: its vote threshold is a
    parameter, its selectors are the roles above. *)
Record t : Type := { voteCount : Z }.
End Settings.

Record Env : Type := { argv : Argv.t; settings : Settings.t }.

(** ** The board *)

Record Message : Type := { text : string; voteCount : number }.
Record Column : Type := { columnTitle : string; messages : list Message }.

(** ** The rendered page *)

(** A field is [None] when its selector matches no element, and else the
    [innerText] of the first match. *)
Record MessageNode : Type :=
  { votesNode : option string; textNode : option string }.

Record ColumnNode : Type :=
  { headerNode : option string; messageNodes : list MessageNode }.

Record Page : Type :=
  { gotoResolves : bool;
    containerAppears : bool;
    boardTitleNode : option string;
    columnNodes : list ColumnNode }.

(** [page.goto(argv.url)] *)
Definition goto (page : Page) : result unit :=
  if gotoResolves page then Ok tt else Err NavigationFailed.

(** [page.waitForSelector(settings.selectors.messageContainer)] *)
Definition waitForSelector (page : Page) (sel : selector) : result unit :=
  if containerAppears page then Ok tt else Err (WaitTimeout sel).

(** [handle.$eval(selector, fn)]: [fn] on the first match, and a rejection
    when nothing matches. *)
Definition eval_on_selector {A : Type} (sel : selector) (node : option string)
    (fn : string -> A) : result A :=
  match node with
  | Some innerText => Ok (fn innerText)
  | None => Err (ElementNotFound sel)
  end.

(** ** run: extraction *)

Definition is_empty (s : string) : bool :=
  match s with EmptyString => true | _ => false end.

(** The loop of lines 63-74 over [messages], from the accumulated
    [eval_messages]. *)
Fixpoint eval_messages_from (env : Env) (messages : list MessageNode)
    (eval_messages : list Message) : result (list Message) :=
  match messages with
  | [] => Ok eval_messages
  | m :: rest =>
      votes <- eval_on_selector messageVotes (votesNode m)
                 (fun innerText => parseInt (trim innerText)) ;;
      if num_ge votes (Int (Settings.voteCount (settings env))) then
        messageText <- eval_on_selector messageText (textNode m) trim ;;
        eval_messages_from env rest
          (eval_messages ++ [ {| text := messageText; voteCount := votes |} ])
      else
        eval_messages_from env rest eval_messages
  end.

(** The loop of lines 57-80 over [columns], from the accumulated
    [eval_columns]. *)
Fixpoint eval_columns_from (env : Env) (columns : list ColumnNode)
    (eval_columns : list Column) : result (list Column) :=
  match columns with
  | [] => Ok eval_columns
  | c :: rest =>
      columnTitle <- eval_on_selector columnHeader (headerNode c) trim ;;
      eval_messages <- eval_messages_from env (messageNodes c) [] ;;
      eval_columns_from env rest
        (eval_columns ++ [ {| columnTitle := columnTitle; messages := eval_messages |} ])
  end.

Definition title_error : string :=
  "Board title does not exist. Please check if provided URL is correct.".

(** Lines 41-80 of [run]: the board title and the evaluated columns. The
    browser and its page (lines 37-38) are taken as there, and [$$] as
    resolving with the list of the elements (lines 52 and 59). *)
Definition extract (env : Env) (page : Page) : result (string * list Column) :=
  _ <- goto page ;;
  _ <- waitForSelector page messageContainer ;;
  boardTitle <- eval_on_selector boardTitleIdentifier (boardTitleNode page) trim ;;
  if is_empty boardTitle then Err (Thrown title_error)
  else
    eval_columns <- eval_columns_from env (columnNodes page) [] ;;
    Ok (boardTitle, eval_columns).

(** ** The serializers *)

(** A loop [for (let i = 0; i < bound; i++)]: the number of [i] = 0, 1, ...
    below [bound]; no [i] is below [NaN] or [-Infinity]. *)
Definition trip_count (bound : number) : nat :=
  match bound with
  | Int z => Z.to_nat z
  | _ => 0%nat
  end.

Definition for_upto {A : Type} (bound : number) (body : nat -> A -> A) (init : A) : A :=
  fold_left (fun acc i => body i acc) (seq 0 (trip_count bound)) init.

Definition text_line (message : Message) : string :=
  "- " ++ text message ++ " (" ++ number_to_string (voteCount message) ++ ") " ++ LF.

(** [parseTextFile(boardTitle, columnData)] *)
Definition parseTextFile (env : Env) (boardTitle : string) (columnData : list Column)
    : string :=
  fold_left
    (fun parsedText column =>
       let columnTitle := columnTitle column in
       let messages := messages column in
       let parsedText :=
         if (0 <? length messages)%nat then parsedText ++ columnTitle ++ " " ++ LF
         else parsedText in
       let parsedText :=
         fold_left (fun parsedText message => parsedText ++ text_line message)
           messages parsedText in
       if (0 <? length messages)%nat then parsedText ++ LF else parsedText)
    columnData
    (boardTitle ++ " " ++ LF ++ LF).

(** What one column adds to a row of the CSV (lines 148-159). *)
Definition csv_cell (i : nat) (column : Column) : string :=
  if (i =? 0)%nat then columnTitle column ++ ","
  else
    match nth_error (messages column) (i - 1) with
    | None => ","
    | Some message =>
        text message ++ " (" ++ number_to_string (voteCount message) ++ "),"
    end.

(** [parseCSV(columnData)] *)
Definition parseCSV (env : Env) (columnData : list Column) : string :=
  let max_rows :=
    num_add
      (Math_max (map (fun col => Int (Z.of_nat (length (messages col)))) columnData))
      (Int 1) in
  for_upto max_rows
    (fun i parsedText =>
       let parsedText :=
         fold_left (fun parsedText column => parsedText ++ csv_cell i column)
           columnData parsedText in
       parsedText ++ CRLF)
    EmptyString.

(** ** run: the switch on the file type *)

Definition format_error : string :=
  "File type is not supported, currently supports .txt and .csv".

(** Lines 84-93. *)
Definition parse_data (env : Env) (boardTitle : string) (eval_columns : list Column)
    : result string :=
  if String.eqb (Argv.fileType (argv env)) "txt" then
    Ok (parseTextFile env boardTitle eval_columns)
  else if String.eqb (Argv.fileType (argv env)) "csv" then
    Ok (parseCSV env eval_columns)
  else Err (Thrown format_error).

Definition run (env : Env) (page : Page) : result (string * string) :=
  board <- extract env page ;;
  let '(boardTitle, eval_columns) := board in
  data <- parse_data env boardTitle eval_columns ;;
  Ok (data, boardTitle).

(** ** The boards and pages of the scenarios *)

Definition env_of (fileType : string) (threshold : Z) : Env :=
  {| argv := {| Argv.url := "https://easyretro.io/publicboard/x";
                Argv.filePath := "./";
                Argv.fileType := fileType |};
     settings := {| Settings.voteCount := threshold |} |}.

Definition sprint1_columns : list Column :=
  [ {| columnTitle := "Went well";
       messages := [ {| text := "Shipped X"; voteCount := Int 3 |} ] |};
    {| columnTitle := "Needs work"; messages := [] |} ].

Definition sprint1_page : Page :=
  {| gotoResolves := true;
     containerAppears := true;
     boardTitleNode := Some " Sprint 1 ";
     columnNodes :=
       [ {| headerNode := Some "Went well";
            messageNodes :=
              [ {| votesNode := Some "3"; textNode := Some " Shipped X" |};
                {| votesNode := Some "1"; textNode := Some "Flaky CI" |} ] |};
         {| headerNode := Some "Needs work";
            messageNodes :=
              [ {| votesNode := Some "n/a"; textNode := Some "Standups" |} ] |} ] |}.

Definition no_columns_page : Page :=
  {| gotoResolves := true;
     containerAppears := true;
     boardTitleNode := Some "Empty board";
     columnNodes := [] |}.

Definition blank_title_page : Page :=
  {| gotoResolves := true;
     containerAppears := true;
     boardTitleNode := Some ("  " ++ LF ++ " ");
     columnNodes := columnNodes sprint1_page |}.

Definition unvoted_message : MessageNode :=
  {| votesNode := None; textNode := Some "Pairing" |}.

Definition unvoted_page : Page :=
  {| gotoResolves := true;
     containerAppears := true;
     boardTitleNode := Some "Sprint 2";
     columnNodes :=
       [ {| headerNode := Some "Went well"; messageNodes := [ unvoted_message ] |} ] |}.

Definition blank_votes_message : MessageNode :=
  {| votesNode := Some " "; textNode := None |}.

Definition blank_votes_page : Page :=
  {| gotoResolves := true;
     containerAppears := true;
     boardTitleNode := Some "Sprint 2";
     columnNodes :=
       [ {| headerNode := Some "Went well";
            messageNodes :=
              [ {| votesNode := Some "3"; textNode := Some "Shipped X" |};
                blank_votes_message ] |} ] |}.

Definition went_well_page : Page :=
  {| gotoResolves := true;
     containerAppears := true;
     boardTitleNode := Some "Sprint 2";
     columnNodes :=
       [ {| headerNode := Some "Went well";
            messageNodes :=
              [ {| votesNode := Some "3"; textNode := Some "Shipped X" |} ] |} ] |}.

(** ** The layouts, in the words of the specification *)

Module Spec.

Definition join (pieces : list string) : string :=
  fold_right append EmptyString pieces.

(** Text: one line per message. *)
Definition message_line (m : Message) : string :=
  "- " ++ text m ++ " (" ++ number_to_string (voteCount m) ++ ") " ++ LF.

(** Text: header line, message lines and a blank line for a column with a
    message, nothing for a column with none. *)
Definition column_block (c : Column) : string :=
  match messages c with
  | [] => EmptyString
  | _ :: _ =>
      columnTitle c ++ " " ++ LF ++ join (map message_line (messages c)) ++ LF
  end.

Definition toText (title : string) (columns : list Column) : string :=
  title ++ " " ++ LF ++ LF ++ join (map column_block columns).

(** CSV: the greatest message-list length, 0 for no column. *)
Definition max_messages (columns : list Column) : nat :=
  list_max (map (fun c => length (messages c)) columns).

Definition header_row (columns : list Column) : list string :=
  map columnTitle columns.

(** CSV: the cell of a column on data row [r], counted from 1. *)
Definition data_cell (r : nat) (c : Column) : string :=
  match nth_error (messages c) (r - 1) with
  | Some m => text m ++ " (" ++ number_to_string (voteCount m) ++ ")"
  | None => EmptyString
  end.

Definition data_row (columns : list Column) (r : nat) : list string :=
  map (data_cell r) columns.

(** CSV: the header row, then the data rows 1 .. [max_messages]. *)
Definition table (columns : list Column) : list (list string) :=
  header_row columns :: map (data_row columns) (seq 1 (max_messages columns)).

(** A row is written as its cells, each followed by a separator, and the
    terminator. *)
Definition render_row (row : list string) : string :=
  join (map (fun cell => cell ++ ",") row) ++ CRLF.

Definition render (rows : list (list string)) : string :=
  join (map render_row rows).

End Spec.

(** ** Predicates on pages and boards *)

(** A message node fails the filter when its vote element is there and the
    number read from it is not at least the threshold. *)
Definition filtered_out (env : Env) (m : MessageNode) : Prop :=
  exists innerText,
    votesNode m = Some innerText /\
    num_ge (parseInt (trim innerText)) (Int (Settings.voteCount (settings env))) = false.

(** A message meets the threshold. *)
Definition meets_threshold (env : Env) (message : Message) : Prop :=
  exists votes,
    voteCount message = Int votes /\ Settings.voteCount (settings env) <= votes.

(** The vote count of a message element is missing (no vote element) or
    is not a number. *)
Definition votes_unusable (m : MessageNode) : Prop :=
  match votesNode m with
  | None => True
  | Some innerText => parseInt (trim innerText) = NaN
  end.

(** [run] gets as far as the title lookup on [page], and the title element
    is there with the text [innerText]. *)
Definition title_resolves_to (page : Page) (innerText : string) : Prop :=
  gotoResolves page = true /\
  containerAppears page = true /\
  boardTitleNode page = Some innerText.

(** [page] with other column elements and the same outcomes of [page.goto]
    and of the wait for a message container. Message containers are what the
    wait of line 43 waits for, so this is a page of the program only when the
    other column elements leave that outcome as it is (as when a message
    element is changed, not taken away). *)
Definition with_columnNodes (page : Page) (nodes : list ColumnNode) : Page :=
  {| gotoResolves := gotoResolves page;
     containerAppears := containerAppears page;
     boardTitleNode := boardTitleNode page;
     columnNodes := nodes |}.

(** [column] is what the columns loop pushes for [node]. *)
Definition column_of (env : Env) (node : ColumnNode) (column : Column) : Prop :=
  option_map trim (headerNode node) = Some (columnTitle column) /\
  eval_messages_from env (messageNodes node) [] = Ok (messages column).

(** A page on which every lookup of [extract] finds its element. *)
Definition complete_message (env : Env) (m : MessageNode) : Prop :=
  exists innerText,
    votesNode m = Some innerText /\
    (num_ge (parseInt (trim innerText)) (Int (Settings.voteCount (settings env))) = true ->
     textNode m <> None).

Definition complete_column (env : Env) (c : ColumnNode) : Prop :=
  headerNode c <> None /\ Forall (complete_message env) (messageNodes c).

(** ** The rest of the module: writing the file *)

(** [s.split(sep)] for a separator of one character. *)
Fixpoint String_split (sep : ascii) (s : string) : list string :=
  match s with
  | EmptyString => [ EmptyString ]
  | String c r =>
      if Ascii.eqb c sep then EmptyString :: String_split sep r
      else
        match String_split sep r with
        | piece :: pieces => String c piece :: pieces
        | [] => [ String c EmptyString ]
        end
  end.

(** [pieces.join(sep)] *)
Fixpoint Array_join (sep : string) (pieces : list string) : string :=
  match pieces with
  | [] => EmptyString
  | piece :: rest =>
      match rest with
      | [] => piece
      | _ :: _ => piece ++ sep ++ Array_join sep rest
      end
  end.

(** [boardTitle.split(' ').join('')], the file name of line 195. *)
Definition file_name (boardTitle : string) : string :=
  Array_join EmptyString (String_split " " boardTitle).

(** What the code of the module does to the outside, in order. [Uncaught]
    is a [throw] at the top level of the module, [WriteFailed] the
    [throw error] of the callback of [fs.writeFile], [ProcessExit] the call of
    line 182. *)
Inductive event : Type :=
  | Uncaught (e : error)
  | ConsoleError (e : error)
  | WriteFile (path data : string)
  | WriteFailed (failure : string)
  | ConsoleLog (msg : string)
  | ProcessExit.

(** The two library calls of [writeToFile] that are not in the sources:
    [path.resolve], and whether [fs.writeFile] calls back with an error. *)
Record Host : Type :=
  { path_resolve : string -> string;
    writeFile_error : string -> string -> option string }.

(** [writeToFile(fileName, data)] *)
Definition writeToFile (env : Env) (host : Host) (fileName data : string) : list event :=
  let resolvedPath :=
    path_resolve host
      (Argv.filePath (argv env) ++ "/" ++ fileName ++ "." ++ Argv.fileType (argv env)) in
  WriteFile resolvedPath data
  :: match writeFile_error host resolvedPath data with
     | Some failure => [ WriteFailed failure ]
     | None =>
         [ ConsoleLog ("Successfully written to file at: " ++ resolvedPath);
           ProcessExit ]
     end.

(** [handleError(error)] *)
Definition handleError (e : error) : list event := [ ConsoleError e ].

Definition url_error : string := "Please provide a URL as the first argument.".

(** The top level of the module once [yargs] has returned [argv] (on
    [--help] or without the [<url>] it ends the process itself, before line
    28): the check of lines 29-31, then line 195. *)
Definition main (env : Env) (host : Host) (page : Page) : list event :=
  if is_empty (Argv.url (argv env)) then [ Uncaught (Thrown url_error) ]
  else
    match run env page with
    | Ok (data, boardTitle) => writeToFile env host (file_name boardTitle) data
    | Err e => handleError e
    end.

(** ** Further notions for the properties *)

(** The loop keeps a message node: its vote element is there and the number
    read from it is at least the threshold. *)
Definition keeps (env : Env) (m : MessageNode) : bool :=
  match votesNode m with
  | Some innerText =>
      num_ge (parseInt (trim innerText)) (Int (Settings.voteCount (settings env)))
  | None => false
  end.

(** The message read from a node with both elements. *)
Definition message_of (m : MessageNode) : option Message :=
  match votesNode m, textNode m with
  | Some votesInnerText, Some textInnerText =>
      Some {| text := trim textInnerText; voteCount := parseInt (trim votesInnerText) |}
  | _, _ => None
  end.

Fixpoint count_char (c : ascii) (s : string) : nat :=
  match s with
  | EmptyString => 0%nat
  | String a r => ((if Ascii.eqb a c then 1 else 0) + count_char c r)%nat
  end.

Definition first_char (s : string) : option ascii :=
  match s with
  | EmptyString => None
  | String c _ => Some c
  end.

Fixpoint last_char (s : string) : option ascii :=
  match s with
  | EmptyString => None
  | String c r =>
      match last_char r with
      | None => Some c
      | Some l => Some l
      end
  end.

(** [s] without the characters [c]. *)
Fixpoint remove_char (c : ascii) (s : string) : string :=
  match s with
  | EmptyString => EmptyString
  | String a r => if Ascii.eqb a c then remove_char c r else String a (remove_char c r)
  end.

(** [s] has no white space at its start nor at its end. *)
Definition no_outer_white_space (s : string) : Prop :=
  (forall c, first_char s = Some c -> is_white_space c = false) /\
  (forall c, last_char s = Some c -> is_white_space c = false).

(** The vote count of a message is at least [threshold]. *)
Definition votes_at_least (threshold : Z) (message : Message) : bool :=
  num_ge (voteCount message) (Int threshold).

(** [column'] is [column] without the messages below [threshold]. *)
Definition filtered_column (threshold : Z) (column column' : Column) : Prop :=
  columnTitle column' = columnTitle column /\
  messages column' = filter (votes_at_least threshold) (messages column).

(** [page] is read with another threshold. *)
Definition with_threshold (env : Env) (threshold : Z) : Env :=
  {| argv := argv env; settings := {| Settings.voteCount := threshold |} |}.

(** What on the page, or in the arguments, makes [run] reject with [e]. *)
Definition error_cause (env : Env) (page : Page) (e : error) : Prop :=
  match e with
  | NavigationFailed => gotoResolves page = false
  | WaitTimeout sel =>
      sel = messageContainer /\ gotoResolves page = true /\ containerAppears page = false
  | ElementNotFound boardTitleIdentifier =>
      gotoResolves page = true /\ containerAppears page = true /\
      boardTitleNode page = None
  | ElementNotFound columnHeader =>
      exists c, In c (columnNodes page) /\ headerNode c = None
  | ElementNotFound messageVotes =>
      exists c m,
        In c (columnNodes page) /\ In m (messageNodes c) /\ votesNode m = None
  | ElementNotFound messageText =>
      exists c m,
        In c (columnNodes page) /\ In m (messageNodes c) /\
        keeps env m = true /\ textNode m = None
  | ElementNotFound messageColumn | ElementNotFound messageContainer => False
  | Thrown msg =>
      (msg = title_error /\
       exists innerText,
         title_resolves_to page innerText /\ all_white_space innerText = true) \/
      (msg = format_error /\
       Argv.fileType (argv env) <> "txt" /\ Argv.fileType (argv env) <> "csv" /\
       exists board, extract env page = Ok board)
  end.

(** No column title and no message text of the board has the character
    [c]. *)
Definition fields_without (c : ascii) (columnData : list Column) : Prop :=
  Forall
    (fun column =>
       count_char c (columnTitle column) = 0%nat /\
       Forall (fun message => count_char c (text message) = 0%nat) (messages column))
    columnData.

(** The lines of the text of a board after the title line and the blank
    line: none for a column without message, else a header line, a line per
    message and a blank line. *)
Definition text_lines (columnData : list Column) : nat :=
  list_sum
    (map
       (fun column =>
          match messages column with
          | [] => 0%nat
          | _ :: _ => (2 + length (messages column))%nat
          end)
       columnData).

Definition LF_char : ascii := ascii_of_nat 10.
Definition CR_char : ascii := ascii_of_nat 13.

(** The integer that the digits of [d] add to [acc], read from the left. *)
Fixpoint uint_value (d : Decimal.uint) (acc : Z) : Z :=
  match d with
  | Decimal.Nil => acc
  | Decimal.D0 d => uint_value d (10 * acc + 0)
  | Decimal.D1 d => uint_value d (10 * acc + 1)
  | Decimal.D2 d => uint_value d (10 * acc + 2)
  | Decimal.D3 d => uint_value d (10 * acc + 3)
  | Decimal.D4 d => uint_value d (10 * acc + 4)
  | Decimal.D5 d => uint_value d (10 * acc + 5)
  | Decimal.D6 d => uint_value d (10 * acc + 6)
  | Decimal.D7 d => uint_value d (10 * acc + 7)
  | Decimal.D8 d => uint_value d (10 * acc + 8)
  | Decimal.D9 d => uint_value d (10 * acc + 9)
  end.

(** [s] is empty or starts with a character that is neither a digit nor a
    letter. *)
Definition no_digit_ahead (s : string) : Prop :=
  match s with
  | EmptyString => True
  | String c _ => digit_value c = None
  end.

Fixpoint no_white_space (s : string) : bool :=
  match s with
  | EmptyString => true
  | String c r => negb (is_white_space c) && no_white_space r
  end.

(** The page with every text that [run] reads already trimmed. *)
Definition trim_message_node (m : MessageNode) : MessageNode :=
  {| votesNode := option_map trim (votesNode m);
     textNode := option_map trim (textNode m) |}.

Definition trim_column_node (c : ColumnNode) : ColumnNode :=
  {| headerNode := option_map trim (headerNode c);
     messageNodes := map trim_message_node (messageNodes c) |}.

Definition trim_page (page : Page) : Page :=
  {| gotoResolves := gotoResolves page;
     containerAppears := containerAppears page;
     boardTitleNode := option_map trim (boardTitleNode page);
     columnNodes := map trim_column_node (columnNodes page) |}.

Definition quiet_host : Host :=
  {| path_resolve := fun p => "/home/user/" ++ p;
     writeFile_error := fun _ _ => None |}.

(** * Lemmas *)

(** ** Strings *)

Lemma append_nil_r (s : string) : s ++ EmptyString = s.
Proof. induction s as [| c s IH]; simpl; [reflexivity | now rewrite IH]. Qed.

Lemma append_assoc (s t u : string) : (s ++ t) ++ u = s ++ (t ++ u).
Proof. induction s as [| c s IH]; simpl; [reflexivity | now rewrite IH]. Qed.

Lemma join_app (l1 l2 : list string) :
  Spec.join (l1 ++ l2) = Spec.join l1 ++ Spec.join l2.
Proof.
  induction l1 as [| x l1 IH]; simpl; [reflexivity |].
  now rewrite IH, append_assoc.
Qed.

(** A loop that appends one piece per element adds the pieces in order. *)
Lemma fold_left_append {A : Type} (piece : A -> string) (l : list A) (init : string) :
  fold_left (fun acc x => acc ++ piece x) l init = init ++ Spec.join (map piece l).
Proof.
  revert init; induction l as [| x l IH]; intros init; simpl.
  - now rewrite append_nil_r.
  - now rewrite IH, append_assoc.
Qed.

Lemma trim_start_all_white_space (s : string) :
  all_white_space s = true -> trim_start s = EmptyString.
Proof.
  induction s as [| c s IH]; simpl; [reflexivity |].
  destruct (is_white_space c); simpl; [exact IH | discriminate].
Qed.

Lemma trim_all_white_space (s : string) :
  all_white_space s = true -> trim s = EmptyString.
Proof. intros H. unfold trim. now rewrite trim_start_all_white_space. Qed.

Lemma trim_end_empty (s : string) :
  trim_end s = EmptyString -> all_white_space s = true.
Proof.
  induction s as [| c s IH]; simpl; [reflexivity |].
  destruct (trim_end s) eqn:E; [| discriminate].
  destruct (is_white_space c); [intros _; now apply IH | discriminate].
Qed.

Lemma trim_start_white_space (s : string) :
  all_white_space (trim_start s) = true -> all_white_space s = true.
Proof.
  induction s as [| c s IH]; simpl; [reflexivity |].
  destruct (is_white_space c) eqn:E; simpl.
  - exact IH.
  - rewrite E. discriminate.
Qed.

(** [trim] gives the empty string on white space only, and only there. *)
Lemma trim_empty_iff (s : string) :
  trim s = EmptyString <-> all_white_space s = true.
Proof.
  split; [| apply trim_all_white_space].
  intros H. apply trim_start_white_space, trim_end_empty, H.
Qed.

(** ** Numbers *)

Lemma trip_count_spec (bound : number) (i : nat) :
  (i < trip_count bound)%nat <-> num_lt (Int (Z.of_nat i)) bound = true.
Proof.
  destruct bound as [| | z]; simpl; try (split; [lia | discriminate]).
  rewrite Z.ltb_lt. lia.
Qed.

Lemma Math_max_from (l : list nat) (n : nat) :
  fold_left num_max (map (fun k => Int (Z.of_nat k)) l) (Int (Z.of_nat n))
  = Int (Z.of_nat (Nat.max n (list_max l))).
Proof.
  revert n; induction l as [| k l IH]; intros n; simpl.
  - now rewrite Nat.max_0_r.
  - rewrite <- Nat2Z.inj_max, IH. now rewrite Nat.max_assoc.
Qed.

Lemma Math_max_lengths (l : list nat) :
  l <> [] ->
  Math_max (map (fun k => Int (Z.of_nat k)) l) = Int (Z.of_nat (list_max l)).
Proof.
  destruct l as [| k l]; [congruence | intros _].
  unfold Math_max. simpl. apply Math_max_from.
Qed.

(** ** The text serializer *)

Lemma message_line_eq (m : Message) : text_line m = Spec.message_line m.
Proof. reflexivity. Qed.

(** What the body of the columns loop of [parseTextFile] adds for one
    column. *)
Lemma text_column_step (c : Column) (parsedText : string) :
  (let messages := messages c in
   let parsedText :=
     if (0 <? length messages)%nat then parsedText ++ columnTitle c ++ " " ++ LF
     else parsedText in
   let parsedText :=
     fold_left (fun parsedText message => parsedText ++ text_line message)
       messages parsedText in
   if (0 <? length messages)%nat then parsedText ++ LF else parsedText)
  = parsedText ++ Spec.column_block c.
Proof.
  unfold Spec.column_block. cbv zeta.
  destruct (messages c) as [| m ms].
  - simpl. now rewrite append_nil_r.
  - change (0 <? length (m :: ms))%nat with true. cbv iota.
    rewrite fold_left_append.
    now rewrite !append_assoc.
Qed.

(** [parseTextFile] is the layout of the specification. *)
Lemma parseTextFile_layout (env : Env) (boardTitle : string) (columnData : list Column) :
  parseTextFile env boardTitle columnData = Spec.toText boardTitle columnData.
Proof.
  unfold parseTextFile, Spec.toText.
  replace (boardTitle ++ " " ++ LF ++ LF ++ Spec.join (map Spec.column_block columnData))
    with ((boardTitle ++ " " ++ LF ++ LF) ++ Spec.join (map Spec.column_block columnData))
    by now rewrite !append_assoc.
  generalize (boardTitle ++ " " ++ LF ++ LF) as parsedText.
  induction columnData as [| c columnData IH]; intros parsedText.
  - simpl. now rewrite append_nil_r.
  - cbn [fold_left map Spec.join fold_right].
    rewrite IH.
    transitivity
      ((parsedText ++ Spec.column_block c) ++ Spec.join (map Spec.column_block columnData));
      [| apply append_assoc].
    f_equal. apply (text_column_step c parsedText).
Qed.

(** ** The CSV serializer *)

Lemma csv_cell_header (c : Column) : csv_cell 0 c = columnTitle c ++ ",".
Proof. reflexivity. Qed.

Lemma csv_cell_data (r : nat) (c : Column) :
  r <> 0%nat -> csv_cell r c = Spec.data_cell r c ++ ",".
Proof.
  intros Hr. unfold csv_cell, Spec.data_cell.
  destruct (Nat.eqb_spec r 0) as [E | _]; [contradiction |].
  destruct (nth_error (messages c) (r - 1)) as [m |]; [| reflexivity].
  now rewrite !append_assoc.
Qed.

(** The rows loop of [parseCSV], for any bound. *)
Lemma csv_rows_loop (columnData : list Column) (rows : list nat) (init : string) :
  fold_left
    (fun acc i =>
       fold_left (fun parsedText column => parsedText ++ csv_cell i column)
         columnData acc ++ CRLF)
    rows init
  = init ++ Spec.join
              (map (fun i => Spec.join (map (csv_cell i) columnData) ++ CRLF) rows).
Proof.
  revert init; induction rows as [| i rows IH]; intros init; simpl.
  - now rewrite append_nil_r.
  - now rewrite IH, fold_left_append, !append_assoc.
Qed.

Lemma max_rows_nonempty (columnData : list Column) :
  columnData <> [] ->
  num_add
    (Math_max (map (fun col => Int (Z.of_nat (length (messages col)))) columnData))
    (Int 1)
  = Int (Z.of_nat (S (Spec.max_messages columnData))).
Proof.
  intros Hne. unfold Spec.max_messages.
  rewrite <- (map_map (fun c => length (messages c)) (fun k => Int (Z.of_nat k))).
  rewrite Math_max_lengths.
  - simpl. f_equal. lia.
  - destruct columnData; [congruence | discriminate].
Qed.

(** With at least one column, [parseCSV] writes the table of the
    specification. *)
Lemma parseCSV_table (env : Env) (columnData : list Column) :
  columnData <> [] ->
  parseCSV env columnData = Spec.render (Spec.table columnData).
Proof.
  intros Hne. unfold parseCSV, for_upto.
  rewrite max_rows_nonempty by exact Hne.
  unfold trip_count. rewrite Nat2Z.id.
  rewrite csv_rows_loop. cbn [append].
  unfold Spec.render, Spec.table.
  cbn [seq map Spec.join fold_right]. f_equal.
  - unfold Spec.render_row, Spec.header_row. now rewrite map_map.
  - rewrite map_map. f_equal. apply map_ext_in.
    intros r Hr. apply in_seq in Hr.
    unfold Spec.render_row, Spec.data_row. rewrite map_map. do 2 f_equal.
    apply map_ext. intros c. apply csv_cell_data. lia.
Qed.

Lemma table_length (columnData : list Column) :
  length (Spec.table columnData) = S (Spec.max_messages columnData).
Proof. unfold Spec.table. simpl. now rewrite length_map, length_seq. Qed.

Lemma table_row_length (columnData : list Column) :
  Forall (fun row => length row = length columnData) (Spec.table columnData).
Proof.
  unfold Spec.table. constructor.
  - unfold Spec.header_row. apply length_map.
  - apply Forall_forall. intros row Hrow. apply in_map_iff in Hrow.
    destruct Hrow as [r [<- _]]. unfold Spec.data_row. apply length_map.
Qed.

(** ** Extraction *)

Lemma bind_Ok_inv {A B : Type} (r : result A) (k : A -> result B) (b : B) :
  bind r k = Ok b -> exists a, r = Ok a /\ k a = Ok b.
Proof. destruct r as [a | e]; simpl; [eauto | discriminate]. Qed.

(** From [H : bind r k = Ok b] to the value [a] of [r], [Ha : r = Ok a] and
    [H : k a = Ok b]. *)
Tactic Notation "inv_bind" hyp(H) "as" ident(a) ident(Ha) :=
  apply bind_Ok_inv in H; destruct H as [a [Ha H]].

Lemma num_ge_Int (a : number) (threshold : Z) :
  num_ge a (Int threshold) = true -> exists votes, a = Int votes /\ threshold <= votes.
Proof.
  destruct a as [| | z]; simpl; try discriminate.
  intros H. exists z. split; [reflexivity | now apply Z.leb_le].
Qed.

Lemma num_ge_NaN (b : number) : num_ge NaN b = false.
Proof. now destruct b. Qed.

Section Extraction.

Variable env : Env.

(** The loop skips a node that fails the filter: its text is not read and
    nothing is pushed. *)
Lemma eval_messages_skip (pre post : list MessageNode) (m : MessageNode)
    (eval_messages : list Message) :
  filtered_out env m ->
  eval_messages_from env (pre ++ m :: post) eval_messages
  = eval_messages_from env (pre ++ post) eval_messages.
Proof.
  intros [innerText [Hnode Hge]].
  revert eval_messages; induction pre as [| p pre IH]; intros eval_messages.
  - simpl. rewrite Hnode. simpl. now rewrite Hge.
  - simpl. destruct (votesNode p) as [pv |]; simpl; [| reflexivity].
    destruct (num_ge (parseInt (trim pv)) _); [| apply IH].
    destruct (textNode p) as [pt |]; simpl; [apply IH | reflexivity].
Qed.

Lemma eval_messages_all_filtered (messages : list MessageNode)
    (eval_messages : list Message) :
  Forall (filtered_out env) messages ->
  eval_messages_from env messages eval_messages = Ok eval_messages.
Proof.
  intros H; induction H as [| m messages Hm _ IH]; [reflexivity |].
  etransitivity; [apply (eval_messages_skip [] messages m eval_messages Hm) | exact IH].
Qed.

(** The loop stops with an error at a node without vote element, unless it
    has stopped before. *)
Lemma eval_messages_no_votes (pre post : list MessageNode) (m : MessageNode)
    (eval_messages : list Message) :
  votesNode m = None ->
  exists e, eval_messages_from env (pre ++ m :: post) eval_messages = Err e.
Proof.
  intros Hnode. revert eval_messages.
  induction pre as [| p pre IH]; intros eval_messages; simpl.
  - rewrite Hnode. simpl. now eexists.
  - destruct (votesNode p) as [pv |]; simpl; [| now eexists].
    destruct (num_ge (parseInt (trim pv)) _); [| apply IH].
    destruct (textNode p) as [pt |]; simpl; [apply IH | now eexists].
Qed.

(** Every message the loop pushes meets the threshold. *)
Lemma eval_messages_threshold (messages : list MessageNode) :
  forall eval_messages evaluated,
    Forall (meets_threshold env) eval_messages ->
    eval_messages_from env messages eval_messages = Ok evaluated ->
    Forall (meets_threshold env) evaluated.
Proof.
  induction messages as [| m messages IH]; intros acc evaluated Hacc Hrun.
  - simpl in Hrun. now inversion Hrun; subst.
  - simpl in Hrun. inv_bind Hrun as votes Hvotes.
    destruct (num_ge votes _) eqn:Hge; [| now apply (IH acc)].
    inv_bind Hrun as innerText Htext.
    eapply IH; [| exact Hrun].
    apply Forall_app. split; [exact Hacc |].
    constructor; [| constructor].
    apply num_ge_Int in Hge. exact Hge.
Qed.

(** The columns loop pushes one column per column node, in order. *)
Lemma eval_columns_shape (columns : list ColumnNode) :
  forall eval_columns evaluated,
    eval_columns_from env columns eval_columns = Ok evaluated ->
    exists pushed,
      evaluated = (eval_columns ++ pushed)%list /\ Forall2 (column_of env) columns pushed.
Proof.
  induction columns as [| c columns IH]; intros acc evaluated Hrun.
  - simpl in Hrun. inversion Hrun; subst. exists []. now rewrite app_nil_r.
  - simpl in Hrun. inv_bind Hrun as title Htitle. inv_bind Hrun as msgs Hmsgs.
    apply IH in Hrun. destruct Hrun as [pushed [-> Hall]].
    exists ({| columnTitle := title; messages := msgs |} :: pushed).
    split; [now rewrite <- app_assoc |].
    constructor; [| exact Hall].
    split; [| exact Hmsgs].
    destruct (headerNode c); simpl in *; [now inversion Htitle | discriminate].
Qed.

(** The same, for a message node of any column node of the page. *)
Lemma eval_columns_skip_message (before after : list ColumnNode) (header : option string)
    (pre post : list MessageNode) (m : MessageNode) (eval_columns : list Column) :
  filtered_out env m ->
  eval_columns_from env
    (before ++ {| headerNode := header; messageNodes := pre ++ m :: post |} :: after)
    eval_columns
  = eval_columns_from env
      (before ++ {| headerNode := header; messageNodes := pre ++ post |} :: after)
      eval_columns.
Proof.
  intros Hm. revert eval_columns.
  induction before as [| c before IH]; intros eval_columns; simpl.
  - now rewrite (eval_messages_skip pre post m [] Hm).
  - destruct (headerNode c); simpl; [| reflexivity].
    destruct (eval_messages_from env (messageNodes c) []); simpl;
      [apply IH | reflexivity].
Qed.

Lemma eval_columns_no_votes (before after : list ColumnNode) (header : option string)
    (pre post : list MessageNode) (m : MessageNode) (eval_columns : list Column) :
  votesNode m = None ->
  exists e,
    eval_columns_from env
      (before ++ {| headerNode := header; messageNodes := pre ++ m :: post |} :: after)
      eval_columns
    = Err e.
Proof.
  intros Hm. revert eval_columns.
  induction before as [| c before IH]; intros eval_columns; simpl.
  - destruct header; simpl; [| now eexists].
    destruct (eval_messages_no_votes pre post m [] Hm) as [e ->]. now eexists.
  - destruct (headerNode c); simpl; [| now eexists].
    destruct (eval_messages_from env (messageNodes c) []); simpl;
      [apply IH | now eexists].
Qed.

(** [extract] sees the column elements through the columns loop only. *)
Lemma extract_with_columnNodes (page : Page) (nodes : list ColumnNode) :
  eval_columns_from env (columnNodes page) [] = eval_columns_from env nodes [] ->
  extract env page = extract env (with_columnNodes page nodes).
Proof.
  intros H. unfold extract, goto, waitForSelector, with_columnNodes. simpl.
  now rewrite H.
Qed.

Lemma extract_columns_Err (page : Page) (e : error) :
  eval_columns_from env (columnNodes page) [] = Err e ->
  exists e', extract env page = Err e'.
Proof.
  intros H. unfold extract, goto, waitForSelector.
  destruct (gotoResolves page); [| now eexists].
  destruct (containerAppears page); [| now eexists].
  destruct (boardTitleNode page) as [t |]; simpl; [| now eexists].
  destruct (is_empty (trim t)); [now eexists |].
  rewrite H. now eexists.
Qed.

(** What [extract] has done when it returns. *)
Lemma extract_Ok_inv (page : Page) (boardTitle : string) (eval_columns : list Column) :
  extract env page = Ok (boardTitle, eval_columns) ->
  gotoResolves page = true /\ containerAppears page = true /\
  option_map trim (boardTitleNode page) = Some boardTitle /\
  boardTitle <> EmptyString /\
  eval_columns_from env (columnNodes page) [] = Ok eval_columns.
Proof.
  unfold extract, goto, waitForSelector. intros H.
  destruct (gotoResolves page); [| discriminate].
  destruct (containerAppears page); [| discriminate].
  simpl in H.
  destruct (boardTitleNode page) as [t |]; [| discriminate]. simpl in H.
  destruct (trim t) eqn:Et; simpl in H; [discriminate |].
  inv_bind H as cols Hcols. inversion H; subst.
  split; [reflexivity |]. split; [reflexivity |].
  split; [simpl; now rewrite Et |].
  split; [discriminate | exact Hcols].
Qed.

(** The columns of an extracted board, against the column nodes. *)
Lemma extract_columns (page : Page) (boardTitle : string) (eval_columns : list Column) :
  extract env page = Ok (boardTitle, eval_columns) ->
  Forall2 (column_of env) (columnNodes page) eval_columns.
Proof.
  intros H. apply extract_Ok_inv in H. destruct H as (_ & _ & _ & _ & Hcols).
  apply eval_columns_shape in Hcols. now destruct Hcols as [pushed [-> Hall]].
Qed.

(** A blank title gives no board, whether the title lookup is reached or
    not. *)
Lemma blank_title_no_board (page : Page) (innerText : string) :
  boardTitleNode page = Some innerText ->
  all_white_space innerText = true ->
  exists e, extract env page = Err e.
Proof.
  intros Hnode Hblank. unfold extract, goto, waitForSelector.
  destruct (gotoResolves page); [| now eexists].
  destruct (containerAppears page); [| now eexists].
  rewrite Hnode. simpl. rewrite (trim_all_white_space _ Hblank). now eexists.
Qed.

Lemma eval_messages_complete (messages : list MessageNode) :
  Forall (complete_message env) messages ->
  forall eval_messages,
    exists evaluated, eval_messages_from env messages eval_messages = Ok evaluated.
Proof.
  intros H; induction H as [| m messages [v [Hv Ht]] _ IH]; intros acc.
  - now exists acc.
  - simpl. rewrite Hv. simpl.
    destruct (num_ge (parseInt (trim v)) _); [| apply IH].
    destruct (textNode m) as [t |]; [simpl; apply IH | now destruct Ht].
Qed.

Lemma eval_columns_complete (columns : list ColumnNode) :
  Forall (complete_column env) columns ->
  forall eval_columns,
    exists evaluated, eval_columns_from env columns eval_columns = Ok evaluated.
Proof.
  intros H; induction H as [| c columns [Hh Hm] _ IH]; intros acc.
  - now exists acc.
  - simpl. destruct (headerNode c) as [h |]; [simpl | congruence].
    destruct (eval_messages_complete _ Hm []) as [msgs ->]. simpl. apply IH.
Qed.

(** [extract] returns a board on every page that loads, shows a message
    container, has a title that is not blank, and is complete. *)
Lemma extract_complete (page : Page) (innerText : string) :
  title_resolves_to page innerText ->
  all_white_space innerText = false ->
  Forall (complete_column env) (columnNodes page) ->
  exists eval_columns, extract env page = Ok (trim innerText, eval_columns).
Proof.
  intros (Hg & Hc & Ht) Hw Hcols. unfold extract, goto, waitForSelector.
  rewrite Hg, Hc, Ht. simpl.
  destruct (trim innerText) eqn:E.
  - apply trim_empty_iff in E. congruence.
  - simpl. destruct (eval_columns_complete _ Hcols []) as [cols ->].
    now exists cols.
Qed.

End Extraction.

(** ** The table of the CSV *)

Lemma list_max_ge (l : list nat) (n : nat) : In n l -> (n <= list_max l)%nat.
Proof.
  intros Hin.
  assert (H : Forall (fun k => (k <= list_max l)%nat) l)
    by (apply list_max_le; lia).
  rewrite Forall_forall in H. now apply H.
Qed.

Lemma messages_le_max (columnData : list Column) (c : Column) :
  In c columnData -> (length (messages c) <= Spec.max_messages columnData)%nat.
Proof.
  intros Hin. apply list_max_ge.
  apply (in_map (fun c => length (messages c))), Hin.
Qed.

(** The cell of message [k] of column [j] is on data row [k + 1], in
    place [j]. *)
Lemma table_cell (columnData : list Column) (j k : nat) (c : Column) (m : Message) :
  nth_error columnData j = Some c ->
  nth_error (messages c) k = Some m ->
  exists row,
    nth_error (Spec.table columnData) (S k) = Some row /\
    nth_error row j
    = Some (text m ++ " (" ++ number_to_string (voteCount m) ++ ")").
Proof.
  intros Hc Hm.
  assert (Hk : (k < Spec.max_messages columnData)%nat).
  { apply Nat.lt_le_trans with (length (messages c)).
    - apply nth_error_Some. congruence.
    - apply messages_le_max. eapply nth_error_In, Hc. }
  exists (Spec.data_row columnData (S k)). split.
  - unfold Spec.table. cbn [nth_error].
    rewrite nth_error_map, nth_error_seq.
    destruct (Nat.ltb_spec k (Spec.max_messages columnData)); [reflexivity | lia].
  - unfold Spec.data_row. rewrite nth_error_map, Hc. simpl.
    unfold Spec.data_cell. cbn [Nat.sub]. now rewrite Nat.sub_0_r, Hm.
Qed.

(** * The claims *)

(** C1, on a board with no column. [Math.max] of no length is [-Infinity],
    so is [max_rows], and the rows loop of [parseCSV] never runs: the result
    is the empty string, with no row at all, where 1 + max(lengths) = 1 row,
    the header row of no cell, is a lone CRLF. [run] hands such a board to
    [parseCSV] for a page without column element. On every other board
    [parseCSV] writes the 1 + max(lengths) rows. *)
Theorem parseCSV_no_columns (env : Env) :
  parseCSV env [] = EmptyString /\
  Spec.table [] = [ [] ] /\
  Spec.render (Spec.table []) = CRLF /\
  parseCSV env [] <> Spec.render (Spec.table []) /\
  run (env_of "csv" 2) no_columns_page = Ok (EmptyString, "Empty board") /\
  (forall columnData,
     parseCSV env columnData
     = match columnData with
       | [] => EmptyString
       | _ :: _ => Spec.render (Spec.table columnData)
       end).
Proof.
  split; [reflexivity |]. split; [reflexivity |]. split; [reflexivity |].
  split; [discriminate |]. split; [reflexivity |].
  intros [| c columnData]; [reflexivity |].
  apply parseCSV_table. discriminate.
Qed.

(** C2 (amended). Take a message element, in any column element, whose
    vote count is missing or is not a number. If its vote element is there,
    with a text from which [parseInt] reads no number (the empty text too),
    the message is dropped and is no error: the message loop and the columns
    loop return what they return on the list without this element, and do not
    look for its text; so [run] gives the same result on two pages that differ
    by this message element only and on which the wait for a message
    container has the same outcome. If it has no vote element, [$eval]
    rejects: the loops return no list and [run] returns nothing. *)
Theorem votes_unusable_outcome (env : Env)
    (before after : list ColumnNode) (header : option string)
    (pre post : list MessageNode) (m : MessageNode) (eval_columns : list Column) :
  votes_unusable m ->
  let with_m :=
    (before ++ {| headerNode := header; messageNodes := pre ++ m :: post |} :: after)%list in
  let without_m :=
    (before ++ {| headerNode := header; messageNodes := pre ++ post |} :: after)%list in
  match votesNode m with
  | Some _ =>
      (forall eval_messages,
         eval_messages_from env (pre ++ m :: post) eval_messages
         = eval_messages_from env (pre ++ post) eval_messages) /\
      eval_columns_from env with_m eval_columns
      = eval_columns_from env without_m eval_columns /\
      (forall page page',
         columnNodes page = with_m ->
         columnNodes page' = without_m ->
         gotoResolves page' = gotoResolves page ->
         containerAppears page' = containerAppears page ->
         boardTitleNode page' = boardTitleNode page ->
         run env page = run env page')
  | None =>
      (exists e, eval_columns_from env with_m eval_columns = Err e) /\
      (forall page, columnNodes page = with_m -> exists e, run env page = Err e)
  end.
Proof.
  intros H with_m without_m. unfold votes_unusable in H.
  destruct (votesNode m) as [innerText |] eqn:Hnode.
  - assert (Hm : filtered_out env m).
    { exists innerText. split; [exact Hnode |]. rewrite H. apply num_ge_NaN. }
    split; [intros acc; now apply eval_messages_skip |].
    split; [now apply eval_columns_skip_message |].
    intros page page' Hnodes Hnodes' Hgoto Hwait Htitle.
    assert (Hx : extract env page = extract env page').
    { unfold extract, goto, waitForSelector.
      rewrite Hgoto, Hwait, Htitle, Hnodes, Hnodes'. unfold with_m, without_m.
      now rewrite (eval_columns_skip_message env before after header pre post m [] Hm). }
    unfold run. now rewrite Hx.
  - split; [now apply eval_columns_no_votes |].
    intros page Hnodes.
    destruct (eval_columns_no_votes env before after header pre post m [] Hnode)
      as [e He].
    fold with_m in He. rewrite <- Hnodes in He.
    destruct (extract_columns_Err env page e He) as [e' He'].
    exists e'. unfold run. now rewrite He'.
Qed.

(** The second message element of "Went well" has a blank vote text and no
    text element; the page without it still has the first message element. *)
Lemma votes_unusable_outcome_witness :
  votes_unusable blank_votes_message /\
  run (env_of "txt" 2) blank_votes_page = run (env_of "txt" 2) went_well_page /\
  run (env_of "txt" 2) went_well_page
  = Ok ("Sprint 2 " ++ LF ++ LF ++ "Went well " ++ LF ++ "- Shipped X (3) " ++ LF ++ LF,
        "Sprint 2").
Proof.
  assert (H : votes_unusable blank_votes_message) by reflexivity.
  split; [exact H |]. split; [| reflexivity].
  pose proof (votes_unusable_outcome (env_of "txt" 2)
                [] [] (Some "Went well")
                [ {| votesNode := Some "3"; textNode := Some "Shipped X" |} ] []
                blank_votes_message [] H) as W.
  cbv zeta in W. cbn [votesNode blank_votes_message] in W.
  destruct W as (_ & _ & W).
  apply (W blank_votes_page went_well_page); reflexivity.
Defined.

(** C2 as stated fails on a message element with no vote element: the
    vote count is missing, and the loops and [run] are rejected by [$eval],
    where the loops return the column on the list without the message
    element. *)
Lemma missing_votes_rejected :
  votes_unusable unvoted_message /\
  columnNodes unvoted_page
  = [ {| headerNode := Some "Went well";
         messageNodes := [] ++ unvoted_message :: [] |} ] /\
  eval_columns_from (env_of "txt" 2) (columnNodes unvoted_page) []
  = Err (ElementNotFound messageVotes) /\
  eval_columns_from (env_of "txt" 2)
    [ {| headerNode := Some "Went well"; messageNodes := [] ++ [] |} ] []
  = Ok [ {| columnTitle := "Went well"; messages := [] |} ] /\
  extract (env_of "txt" 2) unvoted_page = Err (ElementNotFound messageVotes) /\
  run (env_of "txt" 2) unvoted_page = Err (ElementNotFound messageVotes).
Proof.
  split; [exact I |]. repeat split.
Qed.

(** C3. Every message of every column of an extracted board has an integer
    vote count that is at least [settings.voteCount]; so a message below the
    threshold is in no column. *)
Theorem extracted_votes_meet_threshold (env : Env) (page : Page)
    (boardTitle : string) (eval_columns : list Column) :
  extract env page = Ok (boardTitle, eval_columns) ->
  Forall (fun column => Forall (meets_threshold env) (messages column)) eval_columns.
Proof.
  intros H. apply extract_Ok_inv in H.
  destruct H as (_ & _ & _ & _ & Hcols).
  apply eval_columns_shape in Hcols. destruct Hcols as [pushed [-> Hall]].
  simpl. induction Hall as [| node column nodes columns [_ Hmsgs] _ IH];
    constructor; [| exact IH].
  eapply eval_messages_threshold; [| exact Hmsgs]. constructor.
Qed.

(** Scenario 5: with the threshold 2, the message with 1 vote of the first
    column is not in the board. *)
Lemma extracted_votes_meet_threshold_witness :
  extract (env_of "txt" 2) sprint1_page = Ok ("Sprint 1", sprint1_columns) /\
  Forall (fun column => Forall (meets_threshold (env_of "txt" 2)) (messages column))
    sprint1_columns.
Proof.
  split; [reflexivity |].
  apply (extracted_votes_meet_threshold (env_of "txt" 2) sprint1_page "Sprint 1").
  reflexivity.
Defined.

(** C4. [parseTextFile] writes the title line and a blank line, then for
    each column with a message its header line, one line per message in
    order and a blank line; a column with no message adds nothing, wherever
    it stands; and the board of Scenario 1 gives the text of Scenario 1. *)
Theorem parseTextFile_blocks (env : Env) (boardTitle : string) (columnData : list Column) :
  parseTextFile env boardTitle columnData = Spec.toText boardTitle columnData /\
  (forall pre post title,
     parseTextFile env boardTitle
       (pre ++ {| columnTitle := title; messages := [] |} :: post)
     = parseTextFile env boardTitle (pre ++ post)) /\
  parseTextFile env "Sprint 1" sprint1_columns
  = "Sprint 1 " ++ LF ++ LF ++ "Went well " ++ LF ++ "- Shipped X (3) " ++ LF ++ LF.
Proof.
  split; [apply parseTextFile_layout |]. split; [| reflexivity].
  intros pre post title. rewrite !parseTextFile_layout. unfold Spec.toText.
  do 4 f_equal. rewrite !map_app, !join_app. reflexivity.
Qed.

(** C5. For a board with at least one column, [parseCSV] writes the header
    row and the data rows 1 .. max: each row is one cell per column, in board
    order, each followed by a separator, then CRLF; the cell of column [j] on
    data row [k + 1] is message [k] of that column, an empty cell when there
    is none; and the board of Scenario 1 gives the two rows of Scenario 2. *)
Theorem parseCSV_rows (env : Env) (columnData : list Column) :
  columnData <> [] ->
  parseCSV env columnData = Spec.render (Spec.table columnData) /\
  length (Spec.table columnData) = S (Spec.max_messages columnData) /\
  Forall (fun row => length row = length columnData) (Spec.table columnData) /\
  (forall j k c m,
     nth_error columnData j = Some c ->
     nth_error (messages c) k = Some m ->
     exists row,
       nth_error (Spec.table columnData) (S k) = Some row /\
       nth_error row j
       = Some (text m ++ " (" ++ number_to_string (voteCount m) ++ ")")) /\
  parseCSV env sprint1_columns
  = "Went well,Needs work," ++ CRLF ++ "Shipped X (3),," ++ CRLF.
Proof.
  intros Hne.
  split; [now apply parseCSV_table |].
  split; [apply table_length |].
  split; [apply table_row_length |].
  split; [| reflexivity].
  intros j k c m. apply table_cell.
Qed.

Lemma parseCSV_rows_witness :
  sprint1_columns <> [] /\
  parseCSV (env_of "csv" 2) sprint1_columns
  = Spec.render (Spec.table sprint1_columns) /\
  Spec.table sprint1_columns
  = [ [ "Went well"; "Needs work" ]; [ "Shipped X (3)"; EmptyString ] ].
Proof.
  split; [discriminate |].
  split; [| reflexivity].
  apply (parseCSV_rows (env_of "csv" 2) sprint1_columns). discriminate.
Defined.

(** C6. On a page whose title element resolves to the empty string or to
    white space only, so that the trimmed title is the empty string, [run]
    throws the string 'Board title does not exist. Please check if provided
    URL is correct.' and returns no board and no output. (The title is looked
    up once the page has loaded and shown a message container.) *)
Theorem blank_title_rejected (env : Env) (page : Page) (innerText : string) :
  title_resolves_to page innerText ->
  all_white_space innerText = true ->
  trim innerText = EmptyString /\
  extract env page = Err (Thrown title_error) /\
  run env page = Err (Thrown title_error) /\
  (forall board, extract env page <> Ok board) /\
  (forall out, run env page <> Ok out).
Proof.
  intros (Hgoto & Hwait & Hnode) Hblank.
  assert (Htrim : trim innerText = EmptyString) by now apply trim_empty_iff.
  assert (Hx : extract env page = Err (Thrown title_error)).
  { unfold extract, goto, waitForSelector. rewrite Hgoto, Hwait, Hnode. simpl.
    now rewrite Htrim. }
  assert (Hr : run env page = Err (Thrown title_error))
    by (unfold run; now rewrite Hx).
  repeat split; try assumption; intros ?; rewrite ?Hx, ?Hr; discriminate.
Qed.

(** Scenario 3. *)
Lemma blank_title_rejected_witness :
  title_resolves_to blank_title_page ("  " ++ LF ++ " ") /\
  all_white_space ("  " ++ LF ++ " ") = true /\
  run (env_of "txt" 2) blank_title_page = Err (Thrown title_error).
Proof.
  split; [repeat split |]. split; [reflexivity |].
  apply (blank_title_rejected (env_of "txt" 2) blank_title_page ("  " ++ LF ++ " "));
    [repeat split | reflexivity].
Defined.

(** C7. With a file type other than "txt" and "csv", [run] never returns
    an output: the switch, which comes after the extraction, takes its default
    branch and throws 'File type is not supported, currently supports .txt
    and .csv'; neither serializer is called. (A failed extraction has thrown
    before the switch is reached.) *)
Theorem unsupported_fileType_rejected (env : Env) (page : Page) :
  Argv.fileType (argv env) <> "txt" ->
  Argv.fileType (argv env) <> "csv" ->
  (forall boardTitle eval_columns,
     parse_data env boardTitle eval_columns = Err (Thrown format_error)) /\
  run env page
  = match extract env page with
    | Ok _ => Err (Thrown format_error)
    | Err e => Err e
    end /\
  (forall out, run env page <> Ok out).
Proof.
  intros Htxt Hcsv.
  assert (Hswitch : forall boardTitle eval_columns,
             parse_data env boardTitle eval_columns = Err (Thrown format_error)).
  { intros boardTitle eval_columns. unfold parse_data.
    destruct (String.eqb_spec (Argv.fileType (argv env)) "txt"); [contradiction |].
    destruct (String.eqb_spec (Argv.fileType (argv env)) "csv"); [contradiction |].
    reflexivity. }
  assert (Hrun : run env page
                 = match extract env page with
                   | Ok _ => Err (Thrown format_error)
                   | Err e => Err e
                   end).
  { unfold run. destruct (extract env page) as [[boardTitle eval_columns] | e]; simpl.
    - now rewrite Hswitch.
    - reflexivity. }
  split; [exact Hswitch |]. split; [exact Hrun |].
  intros out. rewrite Hrun. destruct (extract env page); discriminate.
Qed.

(** Scenario 4. *)
Lemma unsupported_fileType_rejected_witness :
  Argv.fileType (argv (env_of "pdf" 2)) <> "txt" /\
  Argv.fileType (argv (env_of "pdf" 2)) <> "csv" /\
  run (env_of "pdf" 2) sprint1_page = Err (Thrown format_error).
Proof.
  split; [discriminate |]. split; [discriminate |].
  destruct (unsupported_fileType_rejected (env_of "pdf" 2) sprint1_page)
    as (_ & Hrun & _); [discriminate | discriminate |].
  exact Hrun.
Defined.

(** C8. The two serializers read nothing but their arguments: whatever the
    globals of the module ([argv], [settings]) are at either call, two calls
    on the same board give the same string, which is a function of the board
    alone: the text layout, and the rendered table (nothing for no column). *)
Theorem serializers_pure (env env' : Env) (boardTitle : string)
    (columnData : list Column) :
  parseTextFile env boardTitle columnData = parseTextFile env' boardTitle columnData /\
  parseCSV env columnData = parseCSV env' columnData /\
  parseTextFile env boardTitle columnData = Spec.toText boardTitle columnData /\
  parseCSV env columnData
  = match columnData with
    | [] => EmptyString
    | _ :: _ => Spec.render (Spec.table columnData)
    end.
Proof.
  split; [now rewrite !parseTextFile_layout |].
  assert (Hcsv : forall e,
             parseCSV e columnData
             = match columnData with
               | [] => EmptyString
               | _ :: _ => Spec.render (Spec.table columnData)
               end).
  { intros e. destruct columnData as [| c rest]; [reflexivity |].
    apply parseCSV_table. discriminate. }
  split; [now rewrite !Hcsv |].
  split; [apply parseTextFile_layout | apply Hcsv].
Qed.

(** C9. An extracted board has one column per column element of the page,
    in page order, with the trimmed header as title, whatever the threshold
    is: the titles are read from the page alone. The messages of a column are
    those the filter lets through, so a column whose message elements all
    fail the filter is there with no message. And the header row of the CSV
    has the title of every column. *)
Theorem one_column_per_column_node (env : Env) (page : Page) (boardTitle : string)
    (eval_columns : list Column) :
  extract env page = Ok (boardTitle, eval_columns) ->
  length eval_columns = length (columnNodes page) /\
  map (fun column => Some (columnTitle column)) eval_columns
  = map (fun node => option_map trim (headerNode node)) (columnNodes page) /\
  Forall2
    (fun node column =>
       eval_messages_from env (messageNodes node) [] = Ok (messages column) /\
       (Forall (filtered_out env) (messageNodes node) -> messages column = []))
    (columnNodes page) eval_columns /\
  (eval_columns <> [] ->
   exists data_rows,
     parseCSV env eval_columns
     = Spec.render_row (map columnTitle eval_columns) ++ data_rows).
Proof.
  intros H. apply extract_Ok_inv in H.
  destruct H as (_ & _ & _ & _ & Hcols).
  apply eval_columns_shape in Hcols. destruct Hcols as [pushed [-> Hall]].
  simpl. split; [| split; [| split]].
  - symmetry. eapply Forall2_length, Hall.
  - induction Hall as [| node column nodes columns [Htitle _] _ IH]; simpl;
      [reflexivity | now rewrite IH, Htitle].
  - induction Hall as [| node column nodes columns [_ Hmsgs] _ IH];
      constructor; [| exact IH].
    split; [exact Hmsgs |]. intros Hfiltered.
    rewrite (eval_messages_all_filtered env _ [] Hfiltered) in Hmsgs.
    now inversion Hmsgs.
  - intros Hne. rewrite (parseCSV_table env pushed Hne).
    unfold Spec.render, Spec.table. cbn [map Spec.join fold_right].
    now eexists.
Qed.

(** With the threshold 2 the only message element of "Needs work" fails
    the filter, and the column is in the board and in the header row. *)
Lemma one_column_per_column_node_witness :
  extract (env_of "csv" 2) sprint1_page = Ok ("Sprint 1", sprint1_columns) /\
  length sprint1_columns = length (columnNodes sprint1_page) /\
  map columnTitle sprint1_columns = [ "Went well"; "Needs work" ].
Proof.
  split; [reflexivity |]. split; [| reflexivity].
  apply (one_column_per_column_node (env_of "csv" 2) sprint1_page "Sprint 1").
  reflexivity.
Defined.

(** C10. With the file type "csv" the data of [run] is [parseCSV] of the
    columns, to which the board title is not passed: two boards with the same
    columns give the same CSV, whatever their titles; so do two pages with the
    same column elements. *)
Theorem csv_ignores_boardTitle (env : Env) (title1 title2 : string)
    (columnData : list Column) :
  Argv.fileType (argv env) = "csv" ->
  parse_data env title1 columnData = Ok (parseCSV env columnData) /\
  parse_data env title1 columnData = parse_data env title2 columnData /\
  (forall page1 page2 data1 data2,
     columnNodes page1 = columnNodes page2 ->
     run env page1 = Ok (data1, title1) ->
     run env page2 = Ok (data2, title2) ->
     data1 = data2).
Proof.
  intros Hcsv.
  assert (Hswitch : forall title columns,
             parse_data env title columns = Ok (parseCSV env columns)).
  { intros title columns. unfold parse_data. now rewrite Hcsv. }
  split; [apply Hswitch |]. split; [now rewrite !Hswitch |].
  intros page1 page2 data1 data2 Hsame Hrun1 Hrun2.
  unfold run in Hrun1, Hrun2.
  apply bind_Ok_inv in Hrun1. destruct Hrun1 as [[t1 cols1] [Hex1 Hrun1]].
  apply bind_Ok_inv in Hrun2. destruct Hrun2 as [[t2 cols2] [Hex2 Hrun2]].
  rewrite Hswitch in Hrun1, Hrun2. simpl in Hrun1, Hrun2.
  inversion Hrun1; inversion Hrun2; subst.
  apply extract_Ok_inv in Hex1. apply extract_Ok_inv in Hex2.
  destruct Hex1 as (_ & _ & _ & _ & Hcols1).
  destruct Hex2 as (_ & _ & _ & _ & Hcols2).
  rewrite Hsame in Hcols1. rewrite Hcols1 in Hcols2.
  now inversion Hcols2.
Qed.

Lemma csv_ignores_boardTitle_witness :
  Argv.fileType (argv (env_of "csv" 2)) = "csv" /\
  parse_data (env_of "csv" 2) "Sprint 1" sprint1_columns
  = parse_data (env_of "csv" 2) "Sprint 2" sprint1_columns.
Proof.
  split; [reflexivity |].
  apply (csv_ignores_boardTitle (env_of "csv" 2) "Sprint 1" "Sprint 2" sprint1_columns).
  reflexivity.
Defined.

(** * Further properties *)

(** ** Strings *)

Lemma trim_start_first (s : string) (c : ascii) :
  first_char (trim_start s) = Some c -> is_white_space c = false.
Proof.
  induction s as [| a s IH]; simpl; [discriminate |].
  destruct (is_white_space a) eqn:E; [exact IH |].
  simpl. intros H. now inversion H; subst.
Qed.

Lemma trim_end_first (s : string) (a : ascii) (r : string) :
  first_char (trim_end (String a r)) = Some a \/ trim_end (String a r) = EmptyString.
Proof.
  simpl. destruct (trim_end r); [| now left].
  destruct (is_white_space a); [now right | now left].
Qed.

Lemma trim_end_last (s : string) (c : ascii) :
  last_char (trim_end s) = Some c -> is_white_space c = false.
Proof.
  induction s as [| a s IH]; simpl; [discriminate |].
  destruct (trim_end s) as [| b t] eqn:E.
  - destruct (is_white_space a) eqn:Ea; simpl; [discriminate |].
    intros H. now inversion H; subst.
  - change (last_char (String a (String b t)))
      with (match last_char (String b t) with None => Some a | Some l => Some l end).
    destruct (last_char (String b t)) as [l |] eqn:El.
    + intros H. inversion H; subst. now apply IH.
    + simpl in El. destruct (last_char t); discriminate.
Qed.

(** A trimmed string has no white space at either end. *)
Lemma trim_ends (s : string) : no_outer_white_space (trim s).
Proof.
  split; intros c H.
  - unfold trim in H. destruct (trim_start s) as [| a r] eqn:E; [discriminate |].
    destruct (trim_end_first (String a r) a r) as [Hf | He].
    + rewrite Hf in H. inversion H; subst. apply (trim_start_first s). now rewrite E.
    + rewrite He in H. discriminate.
  - now apply (trim_end_last (trim_start s)).
Qed.

(** ** The message loop as a filter *)

Section MessageLoop.

Variable env : Env.

Lemma keeps_filtered_out (m : MessageNode) :
  votesNode m <> None -> keeps env m = false -> filtered_out env m.
Proof.
  unfold keeps, filtered_out. destruct (votesNode m) as [v |]; [| congruence].
  intros _ H. now exists v.
Qed.

(** What the loop returns: the nodes it keeps, in order, after what was
    there. *)
Lemma eval_messages_kept (nodes : list MessageNode) :
  forall eval_messages evaluated,
    eval_messages_from env nodes eval_messages = Ok evaluated ->
    map Some evaluated
    = (map Some eval_messages ++ map message_of (filter (keeps env) nodes))%list.
Proof.
  induction nodes as [| m nodes IH]; intros acc evaluated Hrun.
  - simpl in Hrun. inversion Hrun; subst. simpl. now rewrite app_nil_r.
  - simpl in Hrun. cbn [filter].
    destruct (votesNode m) as [v |] eqn:Ev; simpl in Hrun; [| discriminate].
    assert (Hk : keeps env m
                 = num_ge (parseInt (trim v)) (Int (Settings.voteCount (settings env))))
      by (unfold keeps; now rewrite Ev).
    rewrite Hk.
    destruct (num_ge (parseInt (trim v)) _) eqn:Hge.
    + destruct (textNode m) as [t |] eqn:Et; simpl in Hrun; [| discriminate].
      apply IH in Hrun. rewrite Hrun, map_app, <- app_assoc. simpl.
      unfold message_of. now rewrite Ev, Et.
    + now apply IH.
Qed.

(** The loop returns only if every node has what the loop looks up. *)
Lemma eval_messages_Ok_complete (nodes : list MessageNode) :
  forall eval_messages evaluated,
    eval_messages_from env nodes eval_messages = Ok evaluated ->
    Forall (complete_message env) nodes.
Proof.
  induction nodes as [| m nodes IH]; intros acc evaluated Hrun; [constructor |].
  simpl in Hrun.
  destruct (votesNode m) as [v |] eqn:Ev; simpl in Hrun; [| discriminate].
  destruct (num_ge (parseInt (trim v)) _) eqn:Hge.
  - destruct (textNode m) as [t |] eqn:Et; simpl in Hrun; [| discriminate].
    constructor; [| eapply IH; exact Hrun].
    exists v. split; [exact Ev |]. intros _. congruence.
  - constructor; [| eapply IH; exact Hrun].
    exists v. split; [exact Ev |]. rewrite Hge. discriminate.
Qed.

Lemma eval_columns_Ok_complete (nodes : list ColumnNode) :
  forall eval_columns evaluated,
    eval_columns_from env nodes eval_columns = Ok evaluated ->
    Forall (complete_column env) nodes.
Proof.
  induction nodes as [| c nodes IH]; intros acc evaluated Hrun; [constructor |].
  simpl in Hrun. inv_bind Hrun as title Htitle. inv_bind Hrun as msgs Hmsgs.
  constructor; [| eapply IH; exact Hrun].
  split.
  - destruct (headerNode c); [discriminate | discriminate Htitle].
  - eapply eval_messages_Ok_complete. exact Hmsgs.
Qed.

End MessageLoop.

(** [extract] returns only on a page where it finds all it looks up. *)
Lemma extract_Ok_complete (env : Env) (page : Page) (boardTitle : string)
    (eval_columns : list Column) :
  extract env page = Ok (boardTitle, eval_columns) ->
  exists innerText,
    title_resolves_to page innerText /\
    all_white_space innerText = false /\
    Forall (complete_column env) (columnNodes page).
Proof.
  intros H.
  pose proof (extract_Ok_inv env page boardTitle eval_columns H)
    as (Hg & Hc & Ht & Hne & Hcols).
  destruct (boardTitleNode page) as [innerText |] eqn:Enode; [| discriminate].
  exists innerText. split; [now repeat split |]. split.
  - destruct (all_white_space innerText) eqn:Ew; [| reflexivity].
    apply trim_all_white_space in Ew. simpl in Ht. congruence.
  - eapply eval_columns_Ok_complete. exact Hcols.
Qed.

(** X1. [extract] returns a board exactly on the pages that load, show a
    message container, have a title element whose text is not blank, a
    header element in every column element, a vote element in every message
    element and a text element in every message element that meets the
    threshold. The title of the board is then the trimmed title text. *)
Theorem extract_succeeds_iff (env : Env) (page : Page) :
  (exists board, extract env page = Ok board) <->
  (exists innerText,
     title_resolves_to page innerText /\
     all_white_space innerText = false /\
     Forall (complete_column env) (columnNodes page)).
Proof.
  split.
  - intros [[boardTitle eval_columns] H].
    now apply (extract_Ok_complete env page boardTitle eval_columns).
  - intros [innerText (Hres & Hw & Hcols)].
    destruct (extract_complete env page innerText Hres Hw Hcols) as [cols Hx].
    eexists. exact Hx.
Qed.

Lemma extract_succeeds_iff_witness :
  (exists board, extract (env_of "txt" 2) sprint1_page = Ok board) /\
  Forall (complete_column (env_of "txt" 2)) (columnNodes sprint1_page).
Proof.
  assert (H : exists board, extract (env_of "txt" 2) sprint1_page = Ok board)
    by (eexists; reflexivity).
  split; [exact H |].
  apply (proj1 (extract_succeeds_iff (env_of "txt" 2) sprint1_page)) in H.
  now destruct H as [innerText (_ & _ & Hcols)].
Defined.

Lemma map_Some_In {A : Type} (x : A) (l : list A) (l' : list (option A)) :
  map Some l = l' -> In (Some x) l' -> In x l.
Proof.
  intros <- H. apply in_map_iff in H. destruct H as [y [Hy Hin]].
  now inversion Hy; subst.
Qed.

(** X2. The messages of a column of an extracted board are exactly the
    message elements of its column element whose vote count is at least the
    threshold, in page order, each with its trimmed text and the number read
    from its vote text: no message that meets the threshold is left out. *)
Theorem extracted_messages_are_the_kept (env : Env) (page : Page)
    (boardTitle : string) (eval_columns : list Column) :
  extract env page = Ok (boardTitle, eval_columns) ->
  Forall2
    (fun node column =>
       map Some (messages column)
       = map message_of (filter (keeps env) (messageNodes node)) /\
       (forall m,
          In m (messageNodes node) ->
          keeps env m = true ->
          exists message, message_of m = Some message /\ In message (messages column)))
    (columnNodes page) eval_columns.
Proof.
  intros H. apply extract_columns in H.
  induction H as [| node column nodes columns [_ Hmsgs] _ IH]; constructor;
    [| exact IH].
  apply eval_messages_kept in Hmsgs. simpl in Hmsgs.
  split; [exact Hmsgs |].
  intros m Hin Hkeep.
  assert (Hopt : In (message_of m) (map Some (messages column))).
  { rewrite Hmsgs. apply in_map. apply filter_In. now split. }
  apply in_map_iff in Hopt. destruct Hopt as [message [Heq Hin']].
  exists message. now split.
Qed.

Lemma extracted_messages_are_the_kept_witness :
  extract (env_of "txt" 2) sprint1_page = Ok ("Sprint 1", sprint1_columns) /\
  Forall2
    (fun node column =>
       map Some (messages column)
       = map message_of (filter (keeps (env_of "txt" 2)) (messageNodes node)))
    (columnNodes sprint1_page) sprint1_columns.
Proof.
  split; [reflexivity |].
  eapply Forall2_impl;
    [| apply (extracted_messages_are_the_kept (env_of "txt" 2) sprint1_page "Sprint 1");
       reflexivity].
  intros node column [H _]. exact H.
Defined.

(** ** Raising the threshold *)

Section Thresholds.

Variable env : Env.
Variable threshold' : Z.
Hypothesis Hle : Settings.voteCount (settings env) <= threshold'.

Lemma num_ge_threshold_weaken (votes : number) :
  num_ge votes (Int threshold') = true ->
  num_ge votes (Int (Settings.voteCount (settings env))) = true.
Proof.
  destruct votes as [| | z]; simpl; try discriminate.
  rewrite !Z.leb_le. lia.
Qed.

Lemma eval_messages_higher_threshold (nodes : list MessageNode) :
  forall acc acc' evaluated evaluated',
    eval_messages_from env nodes acc = Ok evaluated ->
    eval_messages_from (with_threshold env threshold') nodes acc' = Ok evaluated' ->
    acc' = filter (votes_at_least threshold') acc ->
    evaluated' = filter (votes_at_least threshold') evaluated.
Proof.
  induction nodes as [| m nodes IH]; intros acc acc' r r' Hrun Hrun' Hacc.
  - simpl in Hrun, Hrun'. inversion Hrun; inversion Hrun'; subst. reflexivity.
  - simpl in Hrun, Hrun'.
    destruct (votesNode m) as [v |]; simpl in Hrun, Hrun'; [| discriminate].
    destruct (num_ge (parseInt (trim v)) (Int threshold')) eqn:Hge'.
    + rewrite (num_ge_threshold_weaken _ Hge') in Hrun.
      destruct (textNode m) as [t |]; simpl in Hrun, Hrun'; [| discriminate].
      apply (IH _ _ _ _ Hrun Hrun').
      assert (Hp : votes_at_least threshold'
                     {| text := trim t; voteCount := parseInt (trim v) |} = true)
        by exact Hge'.
      rewrite filter_app, Hacc. cbn [filter]. now rewrite Hp.
    + destruct (num_ge (parseInt (trim v)) (Int (Settings.voteCount (settings env)))).
      * destruct (textNode m) as [t |]; simpl in Hrun; [| discriminate].
        apply (IH _ _ _ _ Hrun Hrun').
        assert (Hp : votes_at_least threshold'
                       {| text := trim t; voteCount := parseInt (trim v) |} = false)
          by exact Hge'.
        rewrite filter_app, Hacc. cbn [filter]. rewrite Hp. now rewrite app_nil_r.
      * apply (IH _ _ _ _ Hrun Hrun' Hacc).
Qed.

Lemma eval_columns_higher_threshold (nodes : list ColumnNode) :
  forall acc acc' evaluated evaluated',
    eval_columns_from env nodes acc = Ok evaluated ->
    eval_columns_from (with_threshold env threshold') nodes acc' = Ok evaluated' ->
    Forall2 (filtered_column threshold') acc acc' ->
    Forall2 (filtered_column threshold') evaluated evaluated'.
Proof.
  induction nodes as [| c nodes IH]; intros acc acc' r r' Hrun Hrun' Hacc.
  - simpl in Hrun, Hrun'. inversion Hrun; inversion Hrun'; subst. exact Hacc.
  - simpl in Hrun, Hrun'.
    inv_bind Hrun as title Htitle. inv_bind Hrun as msgs Hmsgs.
    inv_bind Hrun' as title' Htitle'. inv_bind Hrun' as msgs' Hmsgs'.
    apply (IH _ _ _ _ Hrun Hrun').
    apply Forall2_app; [exact Hacc |].
    constructor; [| constructor]. split; simpl.
    + rewrite Htitle in Htitle'. now inversion Htitle'.
    + now apply (eval_messages_higher_threshold (messageNodes c) [] [] msgs msgs').
Qed.

End Thresholds.

Lemma complete_message_higher_threshold (env : Env) (threshold' : Z) (m : MessageNode) :
  Settings.voteCount (settings env) <= threshold' ->
  complete_message env m -> complete_message (with_threshold env threshold') m.
Proof.
  intros Hle [v [Hv Ht]]. exists v. split; [exact Hv |].
  intros Hge. apply Ht. now apply (num_ge_threshold_weaken env threshold' Hle).
Qed.

Lemma complete_column_higher_threshold (env : Env) (threshold' : Z) (c : ColumnNode) :
  Settings.voteCount (settings env) <= threshold' ->
  complete_column env c -> complete_column (with_threshold env threshold') c.
Proof.
  intros Hle [Hh Hm]. split; [exact Hh |].
  eapply Forall_impl; [| exact Hm].
  intros m. now apply complete_message_higher_threshold.
Qed.

(** X3. Raising the threshold only takes messages away: when [extract]
    returns a board, it also returns one with any higher threshold, with the
    same title and the same columns, each keeping, in order, exactly its
    messages whose vote count is at least the higher threshold. *)
Theorem higher_threshold_filters (env : Env) (threshold' : Z) (page : Page)
    (boardTitle : string) (eval_columns : list Column) :
  Settings.voteCount (settings env) <= threshold' ->
  extract env page = Ok (boardTitle, eval_columns) ->
  exists eval_columns',
    extract (with_threshold env threshold') page = Ok (boardTitle, eval_columns') /\
    Forall2 (filtered_column threshold') eval_columns eval_columns'.
Proof.
  intros Hle H.
  destruct (extract_Ok_complete env page boardTitle eval_columns H)
    as [innerText (Hres & Hw & Hcols)].
  assert (Hcols' : Forall (complete_column (with_threshold env threshold'))
                     (columnNodes page)).
  { eapply Forall_impl; [| exact Hcols].
    intros c. now apply complete_column_higher_threshold. }
  destruct (extract_complete (with_threshold env threshold') page innerText
              Hres Hw Hcols') as [eval_columns' H'].
  destruct (extract_complete env page innerText Hres Hw Hcols) as [cols0 H0].
  rewrite H in H0. inversion H0; subst.
  exists eval_columns'. split; [exact H' |].
  apply extract_Ok_inv in H. destruct H as (_ & _ & _ & _ & Hloop).
  apply extract_Ok_inv in H'. destruct H' as (_ & _ & _ & _ & Hloop').
  apply (eval_columns_higher_threshold env threshold' Hle (columnNodes page)
           [] [] cols0 eval_columns' Hloop Hloop').
  constructor.
Qed.

Lemma higher_threshold_filters_witness :
  Settings.voteCount (settings (env_of "txt" 2)) <= 4 /\
  extract (env_of "txt" 2) sprint1_page = Ok ("Sprint 1", sprint1_columns) /\
  exists eval_columns',
    extract (with_threshold (env_of "txt" 2) 4) sprint1_page
    = Ok ("Sprint 1", eval_columns') /\
    Forall2 (filtered_column 4) sprint1_columns eval_columns'.
Proof.
  split; [simpl; lia |]. split; [reflexivity |].
  apply (higher_threshold_filters (env_of "txt" 2) 4 sprint1_page);
    [simpl; lia | reflexivity].
Defined.

(** X4. The text element of a message element is looked up only when the
    vote count meets the threshold: for a message element that fails the
    filter, [run] gives the same result whatever its text element is, there
    or not. *)
Theorem text_of_filtered_message_unread (env : Env) (page : Page)
    (before after : list ColumnNode) (header : option string)
    (pre post : list MessageNode) (m : MessageNode) (anyText : option string) :
  filtered_out env m ->
  columnNodes page
  = (before ++ {| headerNode := header; messageNodes := pre ++ m :: post |} :: after)%list ->
  run env page
  = run env
      (with_columnNodes page
         (before
          ++ {| headerNode := header;
                messageNodes :=
                  pre ++ {| votesNode := votesNode m; textNode := anyText |} :: post |}
          :: after)).
Proof.
  intros Hm Hnodes.
  assert (Hm' : filtered_out env {| votesNode := votesNode m; textNode := anyText |}).
  { destruct Hm as [v [Hv Hge]]. now exists v. }
  assert (Hx : extract env page
               = extract env
                   (with_columnNodes page
                      (before
                       ++ {| headerNode := header;
                             messageNodes :=
                               pre ++ {| votesNode := votesNode m; textNode := anyText |}
                                   :: post |}
                       :: after))).
  { apply extract_with_columnNodes. rewrite Hnodes.
    rewrite (eval_columns_skip_message env before after header pre post m [] Hm).
    symmetry. now apply eval_columns_skip_message. }
  unfold run. now rewrite Hx.
Qed.

(** The message with one vote of the first column, with the threshold 2,
    without its text element. *)
Lemma text_of_filtered_message_unread_witness :
  filtered_out (env_of "txt" 2) {| votesNode := Some "1"; textNode := Some "Flaky CI" |} /\
  run (env_of "txt" 2) sprint1_page
  = run (env_of "txt" 2)
      (with_columnNodes sprint1_page
         ([]
          ++ {| headerNode := Some "Went well";
                messageNodes :=
                  [ {| votesNode := Some "3"; textNode := Some " Shipped X" |} ]
                  ++ {| votesNode := Some "1"; textNode := None |} :: [] |}
          :: [ {| headerNode := Some "Needs work";
                  messageNodes :=
                    [ {| votesNode := Some "n/a"; textNode := Some "Standups" |} ] |} ])).
Proof.
  assert (H : filtered_out (env_of "txt" 2)
                {| votesNode := Some "1"; textNode := Some "Flaky CI" |})
    by (exists "1"; split; reflexivity).
  split; [exact H |].
  apply (text_of_filtered_message_unread (env_of "txt" 2) sprint1_page
           [] _ (Some "Went well")
           [ {| votesNode := Some "3"; textNode := Some " Shipped X" |} ] []
           {| votesNode := Some "1"; textNode := Some "Flaky CI" |} None H).
  reflexivity.
Defined.

(** The title of an extracted board is not empty and does not start with
    white space. *)
Lemma extracted_strings_trimmed_aux (env : Env) (page : Page)
    (boardTitle : string) (eval_columns : list Column) :
  extract env page = Ok (boardTitle, eval_columns) ->
  boardTitle <> EmptyString /\
  (forall c, first_char boardTitle = Some c -> is_white_space c = false).
Proof.
  intros H. apply extract_Ok_inv in H. destruct H as (_ & _ & Ht & Hne & _).
  split; [exact Hne |].
  destruct (boardTitleNode page) as [innerText |]; [| discriminate].
  simpl in Ht. inversion Ht; subst. apply trim_ends.
Qed.

(** X5. The strings of an extracted board are trimmed: the title is not
    empty and has no white space at either end, and no column title and no
    message text has white space at either end (these two may be empty). *)
Theorem extracted_strings_trimmed (env : Env) (page : Page)
    (boardTitle : string) (eval_columns : list Column) :
  extract env page = Ok (boardTitle, eval_columns) ->
  boardTitle <> EmptyString /\
  no_outer_white_space boardTitle /\
  Forall
    (fun column =>
       no_outer_white_space (columnTitle column) /\
       Forall (fun message => no_outer_white_space (text message)) (messages column))
    eval_columns.
Proof.
  intros H. pose proof (extract_columns env page boardTitle eval_columns H) as Hcols.
  apply extract_Ok_inv in H. destruct H as (_ & _ & Ht & Hne & _).
  split; [exact Hne |]. split.
  - destruct (boardTitleNode page) as [innerText |]; [| discriminate].
    simpl in Ht. inversion Ht; subst. apply trim_ends.
  - induction Hcols as [| node column nodes columns [Htitle Hmsgs] _ IH];
      constructor; [| exact IH].
    split.
    + destruct (headerNode node) as [h |]; [| discriminate].
      simpl in Htitle. inversion Htitle as [Heq]. apply trim_ends.
    + apply eval_messages_kept in Hmsgs. simpl in Hmsgs.
      apply Forall_forall. intros message Hin.
      assert (Hopt : In (Some message)
                       (map message_of (filter (keeps env) (messageNodes node)))).
      { rewrite <- Hmsgs. now apply in_map. }
      apply in_map_iff in Hopt. destruct Hopt as [m [Hm _]].
      unfold message_of in Hm.
      destruct (votesNode m); [| discriminate].
      destruct (textNode m); [| discriminate].
      inversion Hm; subst. simpl. apply trim_ends.
Qed.

Lemma extracted_strings_trimmed_witness :
  extract (env_of "txt" 2) sprint1_page = Ok ("Sprint 1", sprint1_columns) /\
  no_outer_white_space "Sprint 1".
Proof.
  split; [reflexivity |].
  apply (extracted_strings_trimmed (env_of "txt" 2) sprint1_page "Sprint 1"
           sprint1_columns).
  reflexivity.
Defined.

(** ** The errors of run *)

Section Errors.

Variable env : Env.

Lemma eval_messages_Err (nodes : list MessageNode) :
  forall eval_messages e,
    eval_messages_from env nodes eval_messages = Err e ->
    (e = ElementNotFound messageVotes /\
     exists m, In m nodes /\ votesNode m = None) \/
    (e = ElementNotFound messageText /\
     exists m, In m nodes /\ keeps env m = true /\ textNode m = None).
Proof.
  induction nodes as [| m nodes IH]; intros acc e Hrun; [discriminate |].
  simpl in Hrun.
  assert (Hlater :
            forall acc',
              eval_messages_from env nodes acc' = Err e ->
              (e = ElementNotFound messageVotes /\
               exists m0, In m0 (m :: nodes) /\ votesNode m0 = None) \/
              (e = ElementNotFound messageText /\
               exists m0, In m0 (m :: nodes) /\ keeps env m0 = true /\ textNode m0 = None)).
  { intros acc' H. destruct (IH _ _ H) as [[-> [m0 [Hin H0]]] | [-> [m0 [Hin H0]]]].
    - left. split; [reflexivity |]. exists m0. split; [now right | exact H0].
    - right. split; [reflexivity |]. exists m0. split; [now right | exact H0]. }
  destruct (votesNode m) as [v |] eqn:Ev; simpl in Hrun.
  - destruct (num_ge (parseInt (trim v)) _) eqn:Hge; [| now apply (Hlater acc)].
    destruct (textNode m) as [t |] eqn:Et; simpl in Hrun; [eapply Hlater; exact Hrun |].
    inversion Hrun; subst. right. split; [reflexivity |].
    exists m. split; [now left |]. split; [| exact Et].
    unfold keeps. now rewrite Ev.
  - inversion Hrun; subst. left. split; [reflexivity |].
    exists m. split; [now left | exact Ev].
Qed.

Lemma eval_columns_Err (page : Page) (nodes : list ColumnNode) :
  (forall c, In c nodes -> In c (columnNodes page)) ->
  forall eval_columns e,
    eval_columns_from env nodes eval_columns = Err e ->
    error_cause env page e /\ exists sel, e = ElementNotFound sel.
Proof.
  induction nodes as [| c nodes IH]; intros Hsub acc e Hrun; [discriminate |].
  simpl in Hrun.
  destruct (headerNode c) as [h |] eqn:Eh; simpl in Hrun.
  - destruct (eval_messages_from env (messageNodes c) []) as [msgs | e'] eqn:Em;
      simpl in Hrun.
    + apply (IH (fun c0 H => Hsub c0 (or_intror H)) _ _ Hrun).
    + inversion Hrun; subst.
      destruct (eval_messages_Err _ _ _ Em) as [[-> [m [Hin H0]]] | [-> [m [Hin H0]]]].
      * split; [| now eexists]. simpl. exists c, m.
        split; [apply Hsub; now left |]. now split.
      * split; [| now eexists]. simpl. exists c, m.
        split; [apply Hsub; now left |]. now split.
  - inversion Hrun; subst. split; [| now eexists]. simpl.
    exists c. split; [apply Hsub; now left | exact Eh].
Qed.

Lemma extract_Err (page : Page) (e : error) :
  extract env page = Err e ->
  error_cause env page e /\ e <> Thrown format_error.
Proof.
  unfold extract, goto, waitForSelector. intros H.
  destruct (gotoResolves page) eqn:Eg; simpl in H;
    [| inversion H; subst; split; [exact Eg | discriminate]].
  destruct (containerAppears page) eqn:Ec; simpl in H;
    [| inversion H; subst; split; [now repeat split | discriminate]].
  destruct (boardTitleNode page) as [t |] eqn:Et; simpl in H;
    [| inversion H; subst; split; [now repeat split | discriminate]].
  destruct (trim t) eqn:Etrim; simpl in H.
  - inversion H; subst. split; [| discriminate]. simpl. left.
    split; [reflexivity |]. exists t. split; [now repeat split |].
    now apply trim_empty_iff.
  - destruct (eval_columns_from env (columnNodes page) []) as [cols | e'] eqn:Ecols;
      simpl in H; [discriminate |].
    inversion H; subst.
    destruct (eval_columns_Err page (columnNodes page) (fun c Hc => Hc) _ _ Ecols)
      as [Hcause [sel ->]].
    split; [exact Hcause | discriminate].
Qed.

Lemma run_Err (page : Page) (e : error) :
  run env page = Err e -> error_cause env page e.
Proof.
  unfold run. intros H.
  destruct (extract env page) as [[boardTitle eval_columns] | e'] eqn:Ex; simpl in H.
  - unfold parse_data in H.
    destruct (String.eqb_spec (Argv.fileType (argv env)) "txt") as [| Htxt];
      [discriminate |].
    destruct (String.eqb_spec (Argv.fileType (argv env)) "csv") as [| Hcsv];
      [discriminate |].
    simpl in H. inversion H; subst. simpl. right.
    split; [reflexivity |]. split; [exact Htxt |]. split; [exact Hcsv |].
    exists (boardTitle, eval_columns). exact Ex.
  - inversion H; subst. now apply extract_Err.
Qed.

End Errors.

(** X6. When [run] rejects with the error of a lookup that finds no
    element, or with one of the two strings that the code throws, the cause is
    on the page or in the arguments: the element named by the error is missing
    (the title element after the page has loaded and shown a container; a
    header element in some column element; a vote element in some message
    element; a text element in some message element that meets the
    threshold), the title is blank, or the file type is neither "txt" nor
    "csv" while the extraction went through. When [handleError] prints one of
    these errors, [run] has rejected with it and the program does nothing
    else. (Other rejections, of the launch of the browser or of [$$], are not
    among these errors and are not spoken of.) *)
Theorem reported_error_has_cause (env : Env) (host : Host) (page : Page) :
  (forall sel,
     run env page = Err (ElementNotFound sel) ->
     error_cause env page (ElementNotFound sel)) /\
  (forall msg,
     run env page = Err (Thrown msg) -> error_cause env page (Thrown msg)) /\
  (forall sel,
     In (ConsoleError (ElementNotFound sel)) (main env host page) ->
     run env page = Err (ElementNotFound sel) /\
     error_cause env page (ElementNotFound sel) /\
     main env host page = [ ConsoleError (ElementNotFound sel) ]) /\
  (forall msg,
     In (ConsoleError (Thrown msg)) (main env host page) ->
     run env page = Err (Thrown msg) /\
     error_cause env page (Thrown msg) /\
     main env host page = [ ConsoleError (Thrown msg) ]).
Proof.
  split; [intros sel; apply run_Err |]. split; [intros msg; apply run_Err |].
  assert (Hmain : forall e,
             In (ConsoleError e) (main env host page) ->
             run env page = Err e /\ error_cause env page e /\
             main env host page = [ ConsoleError e ]).
  { intros e. unfold main. intros Hin.
    destruct (is_empty (Argv.url (argv env))).
    - destruct Hin as [H | []]. discriminate.
    - destruct (run env page) as [[data boardTitle] | e'] eqn:Hrun.
      + unfold writeToFile in Hin. destruct Hin as [H | Hin]; [discriminate |].
        destruct (writeFile_error host _ data); simpl in Hin;
          repeat (destruct Hin as [H | Hin]; [discriminate |]); destruct Hin.
      + destruct Hin as [H | []]. inversion H; subst.
        split; [reflexivity |]. split; [now apply run_Err | reflexivity]. }
  split; [intros sel | intros msg]; apply Hmain.
Qed.

Lemma reported_error_has_cause_witness :
  run (env_of "txt" 2) unvoted_page = Err (ElementNotFound messageVotes) /\
  error_cause (env_of "txt" 2) unvoted_page (ElementNotFound messageVotes) /\
  main (env_of "txt" 2) quiet_host unvoted_page
  = [ ConsoleError (ElementNotFound messageVotes) ].
Proof.
  split; [reflexivity |]. split; [| reflexivity].
  apply (proj1 (reported_error_has_cause (env_of "txt" 2) quiet_host unvoted_page)
           messageVotes).
  reflexivity.
Defined.

(** ** The file name *)

Lemma String_split_not_nil (sep : ascii) (s : string) : String_split sep s <> [].
Proof.
  destruct s as [| c r]; simpl; [discriminate |].
  destruct (Ascii.eqb c sep); [discriminate |].
  destruct (String_split sep r); discriminate.
Qed.

Lemma Array_join_empty_cons (piece : string) (rest : list string) :
  Array_join EmptyString (piece :: rest) = piece ++ Array_join EmptyString rest.
Proof.
  destruct rest as [| p rest]; [simpl; now rewrite append_nil_r | reflexivity].
Qed.

(** Splitting at a character and joining with nothing takes the character
    out. *)
Lemma split_join_removes (sep : ascii) (s : string) :
  Array_join EmptyString (String_split sep s) = remove_char sep s.
Proof.
  induction s as [| c r IH]; [reflexivity |].
  cbn [String_split remove_char].
  destruct (Ascii.eqb c sep).
  - now rewrite Array_join_empty_cons.
  - destruct (String_split sep r) as [| piece pieces] eqn:E.
    + now destruct (String_split_not_nil sep r).
    + rewrite Array_join_empty_cons in *. simpl. now rewrite IH.
Qed.

Lemma count_char_removed (sep : ascii) (s : string) :
  count_char sep (remove_char sep s) = 0%nat.
Proof.
  induction s as [| c r IH]; [reflexivity |]. simpl.
  destruct (Ascii.eqb c sep) eqn:E; [exact IH |]. simpl. now rewrite E.
Qed.

Lemma count_char_kept (sep c : ascii) (s : string) :
  c <> sep -> count_char c (remove_char sep s) = count_char c s.
Proof.
  intros Hne. induction s as [| a r IH]; [reflexivity |]. simpl.
  destruct (Ascii.eqb_spec a sep) as [-> | _].
  - destruct (Ascii.eqb_spec sep c) as [E | _]; [congruence | exact IH].
  - simpl. now rewrite IH.
Qed.

Lemma remove_char_not_empty (sep c : ascii) (s : string) :
  first_char s = Some c -> c <> sep -> remove_char sep s <> EmptyString.
Proof.
  destruct s as [| a r]; simpl; [discriminate |].
  intros H Hne. inversion H; subst.
  destruct (Ascii.eqb_spec c sep); [contradiction | discriminate].
Qed.

Lemma run_title (env : Env) (page : Page) (data boardTitle : string) :
  run env page = Ok (data, boardTitle) ->
  exists eval_columns,
    extract env page = Ok (boardTitle, eval_columns) /\
    parse_data env boardTitle eval_columns = Ok data.
Proof.
  unfold run. intros H. inv_bind H as board Hx. destruct board as [t cols].
  inv_bind H as d Hd. inversion H; subst. now exists cols.
Qed.

(** X7. The file name is the board title without its space characters and
    with every other character, tabs, line feeds and no-break spaces
    included, kept in order; for a title that [run] returns it is not
    empty. *)
Theorem file_name_without_spaces (boardTitle : string) :
  file_name boardTitle = remove_char " " boardTitle /\
  count_char " " (file_name boardTitle) = 0%nat /\
  (forall c, c <> " "%char -> count_char c (file_name boardTitle) = count_char c boardTitle) /\
  (forall env page data,
     run env page = Ok (data, boardTitle) -> file_name boardTitle <> EmptyString).
Proof.
  assert (Hname : file_name boardTitle = remove_char " " boardTitle)
    by apply split_join_removes.
  split; [exact Hname |]. rewrite Hname.
  split; [apply count_char_removed |].
  split; [intros c; apply count_char_kept |].
  intros env page data Hrun.
  destruct (run_title env page data boardTitle Hrun) as [cols [Hx _]].
  destruct (extracted_strings_trimmed_aux env page boardTitle cols Hx) as [Hne Hfirst].
  destruct boardTitle as [| c r]; [contradiction |].
  apply (remove_char_not_empty " " c); [reflexivity |].
  intros ->. specialize (Hfirst " "%char eq_refl). discriminate.
Qed.

Lemma file_name_without_spaces_witness :
  run (env_of "txt" 2) sprint1_page
  = Ok ("Sprint 1 " ++ LF ++ LF ++ "Went well " ++ LF ++ "- Shipped X (3) " ++ LF ++ LF,
        "Sprint 1") /\
  file_name "Sprint 1" = "Sprint1" /\
  file_name "Sprint 1" <> EmptyString.
Proof.
  split; [reflexivity |]. split; [reflexivity |].
  destruct (file_name_without_spaces "Sprint 1") as (_ & _ & _ & H).
  apply (H (env_of "txt" 2) sprint1_page
           ("Sprint 1 " ++ LF ++ LF ++ "Went well " ++ LF ++ "- Shipped X (3) " ++ LF ++ LF)).
  reflexivity.
Defined.

(** ** The program *)

Lemma parse_data_Ok (env : Env) (boardTitle data : string) (eval_columns : list Column) :
  parse_data env boardTitle eval_columns = Ok data <->
  (Argv.fileType (argv env) = "txt" /\ data = parseTextFile env boardTitle eval_columns) \/
  (Argv.fileType (argv env) = "csv" /\ data = parseCSV env eval_columns).
Proof.
  unfold parse_data.
  destruct (String.eqb_spec (Argv.fileType (argv env)) "txt") as [Htxt | Htxt].
  - split.
    + intros H. inversion H; subst. now left.
    + intros [[_ ->] | [Hcsv _]]; [reflexivity |]. rewrite Htxt in Hcsv. discriminate.
  - destruct (String.eqb_spec (Argv.fileType (argv env)) "csv") as [Hcsv | Hcsv].
    + split.
      * intros H. inversion H; subst. now right.
      * intros [[Ht _] | [_ ->]]; [contradiction | reflexivity].
    + split; [discriminate |].
      intros [[Ht _] | [Hc _]]; contradiction.
Qed.

(** X8. The program writes a file exactly when a URL is given, the
    extraction returns a board and the file type is "txt" or "csv". What it
    writes is then the text, or the CSV, of that board, and where is
    [path.resolve] of [filePath/name.fileType], with the board title without
    its spaces as name. *)
Theorem main_writes_file (env : Env) (host : Host) (page : Page) (path data : string) :
  In (WriteFile path data) (main env host page) <->
  Argv.url (argv env) <> EmptyString /\
  exists boardTitle eval_columns,
    extract env page = Ok (boardTitle, eval_columns) /\
    ((Argv.fileType (argv env) = "txt" /\
      data = parseTextFile env boardTitle eval_columns) \/
     (Argv.fileType (argv env) = "csv" /\ data = parseCSV env eval_columns)) /\
    path
    = path_resolve host
        (Argv.filePath (argv env) ++ "/" ++ file_name boardTitle ++ "."
         ++ Argv.fileType (argv env)).
Proof.
  unfold main. split.
  - intros Hin.
    destruct (Argv.url (argv env)) as [| c r] eqn:Eurl; simpl in Hin.
    + destruct Hin as [H | []]. discriminate.
    + split; [discriminate |].
      destruct (run env page) as [[data' boardTitle] | e] eqn:Hrun.
      * unfold writeToFile in Hin.
        destruct Hin as [H | Hin].
        -- inversion H; subst.
           destruct (run_title env page data boardTitle Hrun) as [cols [Hx Hd]].
           exists boardTitle, cols. split; [exact Hx |].
           split; [now apply parse_data_Ok | reflexivity].
        -- destruct (writeFile_error host _ data'); simpl in Hin;
             repeat (destruct Hin as [H | Hin]; [discriminate |]); destruct Hin.
      * destruct Hin as [H | []]. discriminate.
  - intros [Hurl [boardTitle [cols (Hx & Hd & ->)]]].
    destruct (Argv.url (argv env)) as [| c r]; [contradiction |]. simpl.
    apply parse_data_Ok in Hd.
    unfold run. rewrite Hx. simpl. rewrite Hd. simpl.
    unfold writeToFile. now left.
Qed.

Lemma main_writes_file_witness :
  In (WriteFile "/home/user/.//Sprint1.csv"
        ("Went well,Needs work," ++ CRLF ++ "Shipped X (3),," ++ CRLF))
     (main (env_of "csv" 2) quiet_host sprint1_page) /\
  Argv.url (argv (env_of "csv" 2)) <> EmptyString.
Proof.
  assert (H : In (WriteFile "/home/user/.//Sprint1.csv"
                    ("Went well,Needs work," ++ CRLF ++ "Shipped X (3),," ++ CRLF))
                 (main (env_of "csv" 2) quiet_host sprint1_page))
    by (left; reflexivity).
  split; [exact H |].
  now apply (proj1 (main_writes_file (env_of "csv" 2) quiet_host sprint1_page _ _)) in H.
Defined.

(** ** Counting separators in the output *)

Lemma count_char_append (c : ascii) (s t : string) :
  count_char c (s ++ t) = (count_char c s + count_char c t)%nat.
Proof.
  induction s as [| a s IH]; [reflexivity |]. simpl. rewrite IH. lia.
Qed.

Lemma count_char_join (c : ascii) (pieces : list string) :
  count_char c (Spec.join pieces) = list_sum (map (count_char c) pieces).
Proof.
  induction pieces as [| p pieces IH]; [reflexivity |].
  simpl. now rewrite count_char_append, IH.
Qed.

Lemma list_sum_constant {A : Type} (f : A -> nat) (n : nat) (l : list A) :
  Forall (fun x => f x = n) l -> list_sum (map f l) = (length l * n)%nat.
Proof.
  intros H; induction H as [| x l Hx _ IH]; [reflexivity |].
  simpl. rewrite Hx, IH. reflexivity.
Qed.

Lemma count_char_cons_zero (c a : ascii) (r : string) :
  count_char c (String a r) = 0%nat -> Ascii.eqb a c = false /\ count_char c r = 0%nat.
Proof.
  simpl. destruct (Ascii.eqb a c); [discriminate | now split].
Qed.

(** A character that is in none of the strings written for a number is in
    none of the numbers written. *)
Lemma count_char_number (c : ascii) (n : number) :
  count_char c "0123456789-NaInfity" = 0%nat ->
  count_char c (number_to_string n) = 0%nat.
Proof.
  intros H.
  repeat (apply count_char_cons_zero in H;
          let E := fresh "E" in destruct H as [E H]).
  assert (Huint : forall d, count_char c (NilEmpty.string_of_uint d) = 0%nat).
  { induction d; cbn [NilEmpty.string_of_uint count_char];
      rewrite ?E, ?E0, ?E1, ?E2, ?E3, ?E4, ?E5, ?E6, ?E7, ?E8;
      try reflexivity; exact IHd. }
  assert (Hzero : forall d, count_char c (NilZero.string_of_uint d) = 0%nat).
  { intros d. unfold NilZero.string_of_uint.
    destruct d; try apply Huint. cbn [count_char]. now rewrite E. }
  destruct n as [| | z]; cbn [number_to_string count_char].
  - now rewrite E10, E11.
  - now rewrite E9, E12, E13, E14, E15, E16, E17.
  - unfold NilZero.string_of_int. destruct (Z.to_int z); [apply Hzero |].
    cbn [count_char]. rewrite E9. apply Hzero.
Qed.

Lemma render_row_count (c : ascii) (row : list string) :
  Forall (fun cell => count_char c cell = 0%nat) row ->
  count_char c (Spec.render_row row)
  = (length row * count_char c "," + count_char c CRLF)%nat.
Proof.
  intros H. unfold Spec.render_row.
  rewrite count_char_append, count_char_join, map_map. f_equal.
  apply list_sum_constant.
  eapply Forall_impl; [| exact H].
  intros cell Hcell. cbv beta. rewrite count_char_append, Hcell. reflexivity.
Qed.

Lemma data_cell_count (c : ascii) (r : nat) (column : Column) :
  count_char c "0123456789-NaInfity" = 0%nat ->
  count_char c " ()" = 0%nat ->
  Forall (fun message => count_char c (text message) = 0%nat) (messages column) ->
  count_char c (Spec.data_cell r column) = 0%nat.
Proof.
  intros Hnum Hpunct Htexts. unfold Spec.data_cell.
  destruct (nth_error (messages column) (r - 1)) as [m |] eqn:E; [| reflexivity].
  apply nth_error_In in E. rewrite Forall_forall in Htexts.
  rewrite !count_char_append, (Htexts m E), (count_char_number c _ Hnum).
  repeat (apply count_char_cons_zero in Hpunct;
          let P := fresh "P" in destruct Hpunct as [P Hpunct]).
  cbn [count_char]. now rewrite P, P0, P1.
Qed.

Lemma table_cells_without (c : ascii) (columnData : list Column) :
  count_char c "0123456789-NaInfity" = 0%nat ->
  count_char c " ()" = 0%nat ->
  fields_without c columnData ->
  Forall (Forall (fun cell => count_char c cell = 0%nat)) (Spec.table columnData).
Proof.
  intros Hnum Hpunct Hfields. unfold Spec.table. constructor.
  - unfold Spec.header_row. apply Forall_map.
    eapply Forall_impl; [| exact Hfields]. now intros column [Ht _].
  - apply Forall_map, Forall_forall. intros r _.
    unfold Spec.data_row. apply Forall_map.
    eapply Forall_impl; [| exact Hfields].
    intros column [_ Hm]. now apply data_cell_count.
Qed.

Lemma parseCSV_count (env : Env) (c : ascii) (columnData : list Column) :
  columnData <> [] ->
  count_char c "0123456789-NaInfity" = 0%nat ->
  count_char c " ()" = 0%nat ->
  fields_without c columnData ->
  count_char c (parseCSV env columnData)
  = (S (Spec.max_messages columnData)
     * (length columnData * count_char c "," + count_char c CRLF))%nat.
Proof.
  intros Hne Hnum Hpunct Hfields.
  rewrite (parseCSV_table env columnData Hne).
  unfold Spec.render. rewrite count_char_join, map_map.
  rewrite <- table_length. apply list_sum_constant.
  pose proof (table_cells_without c columnData Hnum Hpunct Hfields) as Hcells.
  pose proof (table_row_length columnData) as Hlen.
  rewrite Forall_forall in *. intros row Hrow.
  rewrite render_row_count by exact (Hcells row Hrow).
  now rewrite (Hlen row Hrow).
Qed.

(** X9. The CSV writes every title and text as it is, without quoting: for
    a board with at least one column whose titles and texts have no comma,
    the output has exactly (1 + max) * columns commas; when they have no line
    feed it has exactly 1 + max line feeds, and when they have no carriage
    return exactly 1 + max carriage returns, one of each per row. *)
Theorem parseCSV_separator_counts (env : Env) (columnData : list Column) :
  columnData <> [] ->
  (fields_without "," columnData ->
   count_char "," (parseCSV env columnData)
   = (S (Spec.max_messages columnData) * length columnData)%nat) /\
  (fields_without LF_char columnData ->
   count_char LF_char (parseCSV env columnData) = S (Spec.max_messages columnData)) /\
  (fields_without CR_char columnData ->
   count_char CR_char (parseCSV env columnData) = S (Spec.max_messages columnData)).
Proof.
  intros Hne. split; [| split]; intros Hfields.
  - rewrite (parseCSV_count env "," columnData Hne eq_refl eq_refl Hfields).
    change (count_char "," ",") with 1%nat. change (count_char "," CRLF) with 0%nat.
    now rewrite Nat.add_0_r, Nat.mul_1_r.
  - rewrite (parseCSV_count env LF_char columnData Hne eq_refl eq_refl Hfields).
    change (count_char LF_char ",") with 0%nat.
    change (count_char LF_char CRLF) with 1%nat.
    now rewrite Nat.mul_0_r, Nat.mul_1_r.
  - rewrite (parseCSV_count env CR_char columnData Hne eq_refl eq_refl Hfields).
    change (count_char CR_char ",") with 0%nat.
    change (count_char CR_char CRLF) with 1%nat.
    now rewrite Nat.mul_0_r, Nat.mul_1_r.
Qed.

Lemma parseCSV_separator_counts_witness :
  sprint1_columns <> [] /\
  fields_without "," sprint1_columns /\
  count_char "," (parseCSV (env_of "csv" 2) sprint1_columns) = 4%nat.
Proof.
  assert (Hfields : fields_without "," sprint1_columns)
    by (repeat constructor).
  split; [discriminate |]. split; [exact Hfields |].
  destruct (parseCSV_separator_counts (env_of "csv" 2) sprint1_columns) as (H & _ & _);
    [discriminate |].
  exact (H Hfields).
Defined.

(** ** Counting the lines of the text *)

Lemma message_line_count (message : Message) :
  count_char LF_char (text message) = 0%nat ->
  count_char LF_char (Spec.message_line message) = 1%nat.
Proof.
  intros H. unfold Spec.message_line.
  rewrite !count_char_append, H, (count_char_number LF_char _ eq_refl).
  reflexivity.
Qed.

Lemma column_block_count (column : Column) :
  count_char LF_char (columnTitle column) = 0%nat ->
  Forall (fun message => count_char LF_char (text message) = 0%nat) (messages column) ->
  count_char LF_char (Spec.column_block column)
  = match messages column with
    | [] => 0%nat
    | _ :: _ => (2 + length (messages column))%nat
    end.
Proof.
  intros Htitle Htexts. unfold Spec.column_block.
  destruct (messages column) as [| m ms] eqn:E; [reflexivity |].
  rewrite !count_char_append, Htitle, count_char_join, map_map.
  rewrite (list_sum_constant (fun x => count_char LF_char (Spec.message_line x)) 1).
  - cbn [count_char LF]. simpl. lia.
  - eapply Forall_impl; [| exact Htexts].
    intros message. apply message_line_count.
Qed.

(** X10. When the board title, the column titles and the message texts have
    no line feed, the text of a board has exactly 2 lines for the title and
    the blank line, and for each column with a message a header line, one
    line per message and a blank line; a column without message adds no
    line. *)
Theorem parseTextFile_line_count (env : Env) (boardTitle : string)
    (columnData : list Column) :
  count_char LF_char boardTitle = 0%nat ->
  fields_without LF_char columnData ->
  count_char LF_char (parseTextFile env boardTitle columnData)
  = (2 + text_lines columnData)%nat.
Proof.
  intros Htitle Hfields. rewrite parseTextFile_layout. unfold Spec.toText.
  rewrite !count_char_append, Htitle, count_char_join, map_map.
  replace (list_sum (map (fun x => count_char LF_char (Spec.column_block x)) columnData))
    with (text_lines columnData).
  - cbn [count_char LF]. simpl. lia.
  - unfold text_lines. f_equal. apply map_ext_in.
    intros column Hin. unfold fields_without in Hfields.
    rewrite Forall_forall in Hfields. destruct (Hfields column Hin) as [Ht Hm].
    symmetry. now apply column_block_count.
Qed.

Lemma parseTextFile_line_count_witness :
  count_char LF_char "Sprint 1" = 0%nat /\
  fields_without LF_char sprint1_columns /\
  count_char LF_char (parseTextFile (env_of "txt" 2) "Sprint 1" sprint1_columns) = 5%nat.
Proof.
  assert (Hfields : fields_without LF_char sprint1_columns) by (repeat constructor).
  split; [reflexivity |]. split; [exact Hfields |].
  apply (parseTextFile_line_count (env_of "txt" 2) "Sprint 1" sprint1_columns eq_refl Hfields).
Defined.

(** ** Reading back a printed number *)

Lemma uint_value_of_uint_acc (d : Decimal.uint) (acc : positive) :
  Z.pos (Pos.of_uint_acc d acc) = uint_value d (Z.pos acc).
Proof.
  revert acc; induction d; intros acc; cbn [Pos.of_uint_acc uint_value];
    rewrite ?IHd; try reflexivity; f_equal; lia.
Qed.

Lemma uint_value_of_uint (d : Decimal.uint) :
  Z.of_uint d = uint_value d 0.
Proof.
  unfold Z.of_uint.
  induction d; cbn [Pos.of_uint uint_value]; try exact IHd; try reflexivity;
    cbn [Z.of_N]; now rewrite uint_value_of_uint_acc.
Qed.

(** The digits of [d], then something that is no digit: [parse_digits] reads
    the digits. *)
Lemma parse_digits_uint (d : Decimal.uint) (rest : string) :
  no_digit_ahead rest ->
  forall acc,
    parse_digits 10 (NilEmpty.string_of_uint d ++ rest) (Some acc)
    = Some (uint_value d acc).
Proof.
  intros Hrest.
  induction d; intros acc; cbn [NilEmpty.string_of_uint append uint_value];
    try (cbn [parse_digits]; exact (IHd _)).
  destruct rest as [| c r]; [reflexivity |].
  cbn [parse_digits]. simpl in Hrest. now rewrite Hrest.
Qed.

Lemma parse_digits_uint_start (d : Decimal.uint) (rest : string) :
  no_digit_ahead rest ->
  d <> Decimal.Nil ->
  parse_digits 10 (NilEmpty.string_of_uint d ++ rest) None
  = Some (uint_value d 0).
Proof.
  intros Hrest Hd.
  destruct d; try contradiction;
    cbn [NilEmpty.string_of_uint append uint_value parse_digits];
    exact (parse_digits_uint _ rest Hrest _).
Qed.

Lemma sign_default (s : string) :
  (forall r, s <> String "-" r) ->
  (forall r, s <> String "+" r) ->
  match s with
  | String "-" r => (-1, r)
  | String "+" r => (1, r)
  | _ => (1, s)
  end = (1, s).
Proof.
  intros Hminus Hplus. destruct s as [| a r]; [reflexivity |].
  destruct a as [[|] [|] [|] [|] [|] [|] [|] [|]]; try reflexivity; exfalso;
    first [ apply (Hminus r); reflexivity | apply (Hplus r); reflexivity ].
Qed.

Lemma radix_default (s : string) :
  (forall r, s <> String "0" (String "x" r)) ->
  (forall r, s <> String "0" (String "X" r)) ->
  match s with
  | String "0" (String "x" r) => (16, r)
  | String "0" (String "X" r) => (16, r)
  | _ => (10, s)
  end = (10, s).
Proof.
  intros Hx HX. destruct s as [| a [| b r]]; [reflexivity | |].
  - destruct a as [[|] [|] [|] [|] [|] [|] [|] [|]]; reflexivity.
  - destruct a as [[|] [|] [|] [|] [|] [|] [|] [|]]; try reflexivity.
    destruct b as [[|] [|] [|] [|] [|] [|] [|] [|]]; try reflexivity; exfalso;
      first [ apply (Hx r); reflexivity | apply (HX r); reflexivity ].
Qed.

(** [parseInt] on a string that starts with no white space, no sign and no
    hexadecimal prefix. *)
Lemma parseInt_plain (s : string) :
  trim_start s = s ->
  (forall r, s <> String "-" r) ->
  (forall r, s <> String "+" r) ->
  (forall r, s <> String "0" (String "x" r)) ->
  (forall r, s <> String "0" (String "X" r)) ->
  parseInt s
  = match parse_digits 10 s None with
    | None => NaN
    | Some m => Int (1 * m)
    end.
Proof.
  intros Htrim Hminus Hplus Hx HX. unfold parseInt. cbv zeta.
  rewrite Htrim, (sign_default s Hminus Hplus), (radix_default s Hx HX).
  reflexivity.
Qed.

Lemma parseInt_minus (s : string) :
  (forall r, s <> String "0" (String "x" r)) ->
  (forall r, s <> String "0" (String "X" r)) ->
  parseInt (String "-" s)
  = match parse_digits 10 s None with
    | None => NaN
    | Some m => Int (-1 * m)
    end.
Proof.
  intros Hx HX. unfold parseInt. cbv zeta.
  change (trim_start (String "-" s)) with (String "-" s). cbv iota.
  rewrite (radix_default s Hx HX). reflexivity.
Qed.

(** The digits of a number other than [Nil], followed by no digit nor
    letter, start with a digit and have no hexadecimal prefix. *)
Lemma uint_string_plain (d : Decimal.uint) (rest : string) :
  no_digit_ahead rest ->
  d <> Decimal.Nil ->
  let s := NilEmpty.string_of_uint d ++ rest in
  trim_start s = s /\
  (forall r, s <> String "-" r) /\
  (forall r, s <> String "+" r) /\
  (forall r, s <> String "0" (String "x" r)) /\
  (forall r, s <> String "0" (String "X" r)).
Proof.
  intros Hrest Hd s. subst s.
  destruct d as [| d | d | d | d | d | d | d | d | d | d]; try contradiction;
    cbn [NilEmpty.string_of_uint append];
    (split; [reflexivity |]);
    (split; [discriminate |]); (split; [discriminate |]);
    try (split; discriminate).
  split; intros r H.
  - destruct d; cbn [NilEmpty.string_of_uint append] in H; try discriminate.
    destruct rest as [| c rest]; [discriminate |].
    inversion H; subst. discriminate Hrest.
  - destruct d; cbn [NilEmpty.string_of_uint append] in H; try discriminate.
    destruct rest as [| c rest]; [discriminate |].
    inversion H; subst. discriminate Hrest.
Qed.

Lemma trim_no_white_space (s : string) : no_white_space s = true -> trim s = s.
Proof.
  intros H. unfold trim.
  assert (Hstart : trim_start s = s).
  { destruct s as [| c r]; [reflexivity |]. simpl in *.
    destruct (is_white_space c); [discriminate | reflexivity]. }
  rewrite Hstart. clear Hstart.
  induction s as [| c r IH]; [reflexivity |].
  simpl in H. apply andb_prop in H. destruct H as [Hc Hr].
  cbn [trim_end]. rewrite (IH Hr).
  destruct r; [| reflexivity].
  destruct (is_white_space c); [discriminate | reflexivity].
Qed.

Lemma uint_string_no_white_space (d : Decimal.uint) :
  no_white_space (NilEmpty.string_of_uint d) = true.
Proof. induction d; cbn [NilEmpty.string_of_uint no_white_space]; try exact IHd; reflexivity. Qed.

Lemma number_string_no_white_space (z : Z) :
  no_white_space (number_to_string (Int z)) = true.
Proof.
  cbn [number_to_string]. unfold NilZero.string_of_int, NilZero.string_of_uint.
  destruct (Z.to_int z) as [d | d]; destruct d;
    try apply (uint_string_no_white_space (Decimal.D0 Decimal.Nil));
    try apply uint_string_no_white_space;
    cbn [no_white_space]; try apply uint_string_no_white_space; reflexivity.
Qed.

(** The string written for a digit list, with "0" for [Nil]. *)
Lemma NilZero_string (d : Decimal.uint) :
  exists d',
    NilZero.string_of_uint d = NilEmpty.string_of_uint d' /\
    d' <> Decimal.Nil /\ uint_value d' 0 = Z.of_uint d.
Proof.
  destruct d.
  1: { exists (Decimal.D0 Decimal.Nil).
       split; [reflexivity |]. split; [discriminate | reflexivity]. }
  all: eexists; split; [reflexivity |]; split; [discriminate |];
    symmetry; apply uint_value_of_uint.
Qed.

Lemma parseInt_number_string (z : Z) (rest : string) :
  no_digit_ahead rest ->
  parseInt (number_to_string (Int z) ++ rest) = Int z.
Proof.
  intros Hrest. cbn [number_to_string].
  rewrite <- (DecimalZ.of_to z) at 2.
  destruct (Z.to_int z) as [d | d]; cbn [NilZero.string_of_int Z.of_int].
  - destruct (NilZero_string d) as [d' (-> & Hd' & <-)].
    destruct (uint_string_plain d' rest Hrest Hd') as (H1 & H2 & H3 & H4 & H5).
    rewrite (parseInt_plain _ H1 H2 H3 H4 H5).
    rewrite (parse_digits_uint_start d' rest Hrest Hd'). f_equal; lia.
  - destruct (NilZero_string d) as [d' (-> & Hd' & <-)].
    destruct (uint_string_plain d' rest Hrest Hd') as (_ & _ & _ & H4 & H5).
    cbn [append]. rewrite (parseInt_minus _ H4 H5).
    rewrite (parse_digits_uint_start d' rest Hrest Hd'). f_equal; lia.
Qed.

(** X11. The number printed in the export reads back as itself: for an
    integer of at most 2^53 in absolute value (where JavaScript keeps integers
    exact and prints all their digits), the vote text that is its decimal
    writing, alone or followed by something that starts with neither a digit
    nor a letter (a space, a bracket), is read by [parseInt], after [trim], as
    that integer, so that what the export prints for the message is that
    decimal writing. *)
Theorem printed_votes_read_back (z : Z) (rest : string) :
  Z.abs z <= 2 ^ 53 ->
  no_digit_ahead rest ->
  parseInt (number_to_string (Int z) ++ rest) = Int z /\
  parseInt (trim (number_to_string (Int z))) = Int z /\
  number_to_string (parseInt (trim (number_to_string (Int z))))
  = number_to_string (Int z).
Proof.
  intros _ Hrest.
  assert (Hplain : parseInt (trim (number_to_string (Int z))) = Int z).
  { rewrite (trim_no_white_space _ (number_string_no_white_space z)).
    rewrite <- (append_nil_r (number_to_string (Int z))).
    now apply parseInt_number_string. }
  split; [now apply parseInt_number_string |].
  split; [exact Hplain | now rewrite Hplain].
Qed.

Lemma printed_votes_read_back_witness :
  Z.abs (-9007199254740991) <= 2 ^ 53 /\
  no_digit_ahead " votes" /\
  parseInt (number_to_string (Int (-9007199254740991)) ++ " votes")
  = Int (-9007199254740991).
Proof.
  assert (Hsafe : Z.abs (-9007199254740991) <= 2 ^ 53) by (vm_compute; discriminate).
  split; [exact Hsafe |]. split; [reflexivity |].
  apply (printed_votes_read_back (-9007199254740991) " votes" Hsafe). reflexivity.
Defined.

(** ** When the program exits *)

(** X12. Once [yargs] has returned the arguments with a URL, the call of
    [process.exit] in [writeToFile] (line 182) is reached exactly when
    [fs.writeFile] was called and called back without error, after the
    success message; it is not reached after an error of [run] nor after a
    failed write. (What [yargs] does by itself on [--help] or without the
    [<url>] comes before this code and is not spoken of.) *)
Theorem main_exits_after_write (env : Env) (host : Host) (page : Page) :
  Argv.url (argv env) <> EmptyString ->
  (In ProcessExit (main env host page) <->
   exists path data,
     main env host page
     = [ WriteFile path data;
         ConsoleLog ("Successfully written to file at: " ++ path);
         ProcessExit ] /\
     writeFile_error host path data = None).
Proof.
  intros _. split.
  - unfold main. intros Hin.
    destruct (is_empty (Argv.url (argv env))).
    + destruct Hin as [H | []]. discriminate.
    + destruct (run env page) as [[data boardTitle] | e].
      * unfold writeToFile in *.
        set (path := path_resolve host _) in *.
        exists path, data.
        destruct (writeFile_error host path data) eqn:Ew.
        -- destruct Hin as [H | [H | []]]; discriminate.
        -- now split.
      * destruct Hin as [H | []]. discriminate.
  - intros [path [data [-> _]]]. right. right. now left.
Qed.

Lemma main_exits_after_write_witness :
  Argv.url (argv (env_of "csv" 2)) <> EmptyString /\
  In ProcessExit (main (env_of "csv" 2) quiet_host sprint1_page) /\
  exists path data,
    main (env_of "csv" 2) quiet_host sprint1_page
    = [ WriteFile path data;
        ConsoleLog ("Successfully written to file at: " ++ path);
        ProcessExit ] /\
    writeFile_error quiet_host path data = None.
Proof.
  assert (Hurl : Argv.url (argv (env_of "csv" 2)) <> EmptyString) by discriminate.
  assert (H : In ProcessExit (main (env_of "csv" 2) quiet_host sprint1_page))
    by (right; right; left; reflexivity).
  split; [exact Hurl |]. split; [exact H |].
  exact (proj1 (main_exits_after_write (env_of "csv" 2) quiet_host sprint1_page Hurl) H).
Defined.

(** ** White space around the texts of the page *)

Lemma trim_start_fixed (s : string) :
  (forall c, first_char s = Some c -> is_white_space c = false) -> trim_start s = s.
Proof.
  destruct s as [| a r]; [reflexivity |]. intros H. simpl.
  now rewrite (H a eq_refl).
Qed.

Lemma trim_end_fixed (s : string) :
  (forall c, last_char s = Some c -> is_white_space c = false) -> trim_end s = s.
Proof.
  induction s as [| a r IH]; [reflexivity |]. intros H.
  cbn [trim_end]. rewrite IH.
  - destruct r; [| reflexivity]. now rewrite (H a eq_refl).
  - intros c Hc. apply H. cbn [last_char]. now rewrite Hc.
Qed.

Lemma trim_idempotent (s : string) : trim (trim s) = trim s.
Proof.
  destruct (trim_ends s) as [Hfirst Hlast].
  unfold trim at 1. rewrite (trim_start_fixed _ Hfirst). now apply trim_end_fixed.
Qed.

Lemma eval_messages_trimmed (env : Env) (nodes : list MessageNode) :
  forall eval_messages,
    eval_messages_from env (map trim_message_node nodes) eval_messages
    = eval_messages_from env nodes eval_messages.
Proof.
  induction nodes as [| m nodes IH]; intros acc; [reflexivity |].
  cbn [map eval_messages_from trim_message_node votesNode textNode].
  destruct (votesNode m) as [v |]; cbn [option_map eval_on_selector bind];
    [| reflexivity].
  rewrite trim_idempotent.
  destruct (num_ge (parseInt (trim v)) _); [| apply IH].
  destruct (textNode m) as [t |]; cbn [option_map eval_on_selector bind];
    [| reflexivity].
  rewrite trim_idempotent. apply IH.
Qed.

Lemma eval_columns_trimmed (env : Env) (nodes : list ColumnNode) :
  forall eval_columns,
    eval_columns_from env (map trim_column_node nodes) eval_columns
    = eval_columns_from env nodes eval_columns.
Proof.
  induction nodes as [| c nodes IH]; intros acc; [reflexivity |].
  cbn [map eval_columns_from trim_column_node headerNode messageNodes].
  destruct (headerNode c) as [h |]; cbn [option_map eval_on_selector bind];
    [| reflexivity].
  rewrite trim_idempotent, eval_messages_trimmed.
  destruct (eval_messages_from env (messageNodes c) []); cbn [bind];
    [apply IH | reflexivity].
Qed.

(** X13. White space around the texts of the page does not count: [run]
    gives the same result on the page and on the page whose title text,
    header texts, vote texts and message texts are trimmed beforehand. *)
Theorem outer_white_space_ignored (env : Env) (page : Page) :
  extract env (trim_page page) = extract env page /\
  run env (trim_page page) = run env page.
Proof.
  assert (Hx : extract env (trim_page page) = extract env page).
  { unfold extract, goto, waitForSelector, trim_page.
    cbn [gotoResolves containerAppears boardTitleNode columnNodes].
    destruct (gotoResolves page); [| reflexivity].
    destruct (containerAppears page); [| reflexivity].
    cbn [bind].
    destruct (boardTitleNode page) as [t |]; cbn [option_map eval_on_selector bind];
      [| reflexivity].
    rewrite trim_idempotent.
    destruct (is_empty (trim t)); [reflexivity |].
    now rewrite eval_columns_trimmed. }
  split; [exact Hx |]. unfold run. now rewrite Hx.
Qed.
